(** * Point tiling pipeline (build_point_tiles.py)

    A shallow embedding of the tile coordinate mapper [lonlat_to_tile], the
    bucket map, the tile writer [flush_buckets] and the row loop of [main],
    followed by the properties of the tiling pipeline.

    Python floats are IEEE 754 binary64 numbers: they are modelled by Rocq's
    primitive floats, Python integers by [Z].  Exceptions are results of an
    error type; the driver threads its mutable state (bucket map, row
    counter, tile directory) through a state-and-error monad. *)

From Stdlib Require Import ZArith Floats Lia Ascii.
From stdpp Require Import gmap strings list pretty.

Set Warnings "-inexact-float".
Local Open Scope Z_scope.

(** ** Exceptions and fallible results *)

Inductive exn : Type :=
  | ValueError
  | OverflowError
  | ZeroDivisionError
  | CorruptTile.

Inductive res (A : Type) : Type :=
  | Ok (a : A)
  | Raise (e : exn).
Arguments Ok {A} a.
Arguments Raise {A} e.

Definition res_bind {A B : Type} (r : res A) (k : A -> res B) : res B :=
  match r with
  | Ok a => k a
  | Raise e => Raise e
  end.

Notation "'let?' x := r 'in' k" := (res_bind r (fun x => k))
  (at level 10, x pattern, r at level 100, k at level 200).

(** ** Python numbers *)

Module Py.

(** [1 << z] on Python integers: a negative shift count is a [ValueError]. *)
Definition shl1 (z : Z) : res Z :=
  if z <? 0 then Raise ValueError else Ok (Z.shiftl 1 z).

(** Conversion of an integer operand of a float operation: rounded to the
    nearest binary64 (ties to even), [OverflowError] beyond the finite
    range. *)
Definition float_of_int (n : Z) : res float :=
  match binary_normalize 53 1024 n 0 false with
  | S754_infinity _ => Raise OverflowError
  | sf => Ok (SF2Prim sf)
  end.

(** [f * n] with a float [f] and an integer [n]. *)
Definition mul_float_int (f : float) (n : Z) : res float :=
  let? g := float_of_int n in Ok (f * g)%float.

(** [a / b] on floats: Python raises on a zero divisor. *)
Definition div (a b : float) : res float :=
  if (b =? 0)%float then Raise ZeroDivisionError else Ok (a / b)%float.

(** [int(f)]: truncation towards zero; [nan] is a [ValueError], an infinity
    an [OverflowError]. *)
Definition int_of_float (f : float) : res Z :=
  match Prim2SF f with
  | S754_zero _ => Ok 0
  | S754_finite s m e =>
      let a := if 0 <=? e then Z.pos m * 2 ^ e else Z.pos m / 2 ^ (- e) in
      Ok (if s then - a else a)
  | S754_infinity _ => Raise OverflowError
  | S754_nan => Raise ValueError
  end.

(** [min(a, b)] and [max(a, b)] of two arguments: the first one is kept
    unless the second compares strictly smaller (resp. greater). *)
Definition min (a b : float) : float := if (b <? a)%float then b else a.
Definition max (a b : float) : float := if (a <? b)%float then b else a.

(** [math.pi] and [math.radians]. *)
Definition pi : float := 3.141592653589793%float.
Definition radians (x : float) : float := (x * (pi / 180))%float.

(** [range(lo, hi + 1)]. *)
Definition range_incl (lo hi : Z) : list Z :=
  map (fun i => lo + Z.of_nat i) (seq 0 (Z.to_nat (hi + 1 - lo))).

End Py.

(** ** Tile coordinate mapper *)

(** [max(min(lat, 85.05112878), -85.05112878)], the first statement of
    [lonlat_to_tile]. *)
Definition clamp_lat (lat : float) : float :=
  Py.max (Py.min lat 85.05112878%float) (- 85.05112878)%float.

(** [math.sin], [math.log] and [float] on a string are functions of the
    Python runtime: the development is parameterised by them.  The first two
    may raise; [pyfloat s] is [None] when [float(s)] raises. *)
Class runtime : Type := Runtime {
  math_sin : float -> res float;
  math_log : float -> res float;
  pyfloat : string -> option float
}.

(** [int((lon + 180.0) / 360.0 * (1 << z))]. *)
Definition tile_x (lon : float) (z : Z) : res Z :=
  let? n := Py.shl1 z in
  let? f := Py.mul_float_int ((lon + 180.0) / 360.0)%float n in
  Py.int_of_float f.

Section Mapper.

Context {rt : runtime}.

(** [int((1.0 - math.log((1.0 + s) / (1.0 - s)) / math.pi) / 2.0 * (1 << z))]. *)
Definition tile_y (s : float) (z : Z) : res Z :=
  let? q := Py.div (1.0 + s)%float (1.0 - s)%float in
  let? l := math_log q in
  let? n := Py.shl1 z in
  let? f := Py.mul_float_int ((1.0 - l / Py.pi) / 2.0)%float n in
  Py.int_of_float f.

Definition lonlat_to_tile (lon lat : float) (z : Z) : res (Z * Z) :=
  let lat := clamp_lat lat in
  let? x := tile_x lon z in
  let? s := math_sin (Py.radians lat) in
  let? y := tile_y s z in
  Ok (x, y).

End Mapper.

(** ** Data model *)

(** A tile key [(z, x, y)]; the tile file of a key is
    [{out}/{z}/{x}/{y}.geojson.gz], a path that determines the key. *)
Definition key : Type := Z * Z * Z.

(** A GeoJSON point feature: [coordinates] is [[lon, lat]], [properties] the
    dictionary of retained columns in insertion order. *)
Record feature : Type := Feature {
  coordinates : float * float;
  properties : list (string * string)
}.

(** What reading a tile file back gives: [Unreadable] stands for any content
    on which [gzip.open], [json.load] or [data["features"].extend] raises,
    [FeatureCollection fs] for a document whose ["features"] list is [fs].
    A file written by [json.dump] is read back by [json.load] as the same
    document, so a tile file is identified with the list of its features. *)
Inductive tile_file : Type :=
  | Unreadable
  | FeatureCollection (features : list feature).

(** The command line options the pipeline reads. *)
Record config : Type := Config {
  lat_col : string;
  lon_col : string;
  min_zoom : Z;
  max_zoom : Z;
  keep_cols : list string;
  batch : Z
}.

(** A row of [csv.DictReader]: a dictionary from column names to cells; the
    cell of a short row is [None]. *)
Abbreviation row := (gmap string (option string)).

(** The state of [main]: the bucket dictionary in insertion order, the row
    counter and the tile directory.  [flush_log] is a history variable of the
    model: it records the value of [rows_seen] at every call of
    [flush_buckets], and no operation reads it. *)
Record world : Type := World {
  buckets : list (key * list feature);
  rows_seen : Z;
  disk : gmap key tile_file;
  flush_log : list Z
}.

(** ** The state-and-error monad of the driver *)

Definition M (A : Type) : Type := world -> res A * world.

Definition ret {A : Type} (a : A) : M A := fun w => (Ok a, w).

Definition raise {A : Type} (e : exn) : M A := fun w => (Raise e, w).

Definition bind {A B : Type} (m : M A) (k : A -> M B) : M B :=
  fun w =>
    match m w with
    | (Ok a, w') => k a w'
    | (Raise e, w') => (Raise e, w')
    end.

Definition lift {A : Type} (r : res A) : M A := fun w => (r, w).

Definition get : M world := fun w => (Ok w, w).

Definition modify (f : world -> world) : M unit := fun w => (Ok tt, f w).

Notation "x <- m ;; k" := (bind m (fun x => k))
  (at level 64, m at next level, right associativity).
Notation "m >> k" := (bind m (fun _ => k))
  (at level 64, right associativity).

Fixpoint for_each {A : Type} (f : A -> M unit) (l : list A) : M unit :=
  match l with
  | [] => ret tt
  | a :: l' => f a >> for_each f l'
  end.

(** ** Record bucketer *)

(** [buckets[k].append(f)] on the [defaultdict(list)]: a missing key is
    first entered, at the end, with an empty list. *)
Fixpoint bucket_append (k : key) (f : feature)
    (b : list (key * list feature)) : list (key * list feature) :=
  match b with
  | [] => [(k, [f])]
  | (k', l) :: b' =>
      if decide (k = k') then (k', l ++ [f]) :: b'
      else (k', l) :: bucket_append k f b'
  end.

Definition set_buckets (b : list (key * list feature)) (w : world) : world :=
  World b (rows_seen w) (disk w) (flush_log w).

Definition set_disk (d : gmap key tile_file) (w : world) : world :=
  World (buckets w) (rows_seen w) d (flush_log w).

Definition count_row (w : world) : world :=
  World (buckets w) (rows_seen w + 1) (disk w) (flush_log w).

Definition log_flush (w : world) : world :=
  World (buckets w) (rows_seen w) (disk w) (flush_log w ++ [rows_seen w]).

(** ** Tile store writer *)

(** The body of the loop of [flush_buckets] for one item of the bucket
    dictionary. *)
Definition write_tile (item : key * list feature) : M unit :=
  let '(k, feats) := item in
  match feats with
  | [] => ret tt
  | _ :: _ =>
      w <- get ;;
      data <- match disk w !! k with
              | Some Unreadable => raise CorruptTile
              | Some (FeatureCollection old) => ret (old ++ feats)
              | None => ret feats
              end ;;
      modify (set_disk (<[k := FeatureCollection data]> (disk w)))
  end.

Definition flush_buckets : M unit :=
  modify log_flush >>
  w <- get ;;
  for_each write_tile (buckets w) >>
  modify (set_buckets []).

(** ** Pipeline driver *)

Section Driver.

Context {rt : runtime}.
Variable cfg : config.

(** [float(row[col])] under the [try]: a missing column, a [None] cell and
    a text that is no number all end in the [except] branch. *)
Definition read_coord (r : row) (col : string) : option float :=
  match r !! col with
  | Some (Some s) => pyfloat s
  | _ => None
  end.

(** [-90 <= lat <= 90 and -180 <= lon <= 180]. *)
Definition valid_coords (lat lon : float) : bool :=
  ((-90 <=? lat) && (lat <=? 90) && (-180 <=? lon) && (lon <=? 180))%float.

(** [props[k] = v] on a dictionary kept in insertion order. *)
Fixpoint dict_set (k v : string) (d : list (string * string))
    : list (string * string) :=
  match d with
  | [] => [(k, v)]
  | (k', v') :: d' =>
      if decide (k = k') then (k', v) :: d' else (k', v') :: dict_set k v d'
  end.

(** [row.get(k, "")], with [None] turned into the empty string. *)
Definition row_get (r : row) (k : string) : string :=
  match r !! k with
  | Some (Some v) => v
  | _ => EmptyString
  end.

Definition row_props (r : row) : list (string * string) :=
  foldl (fun props k => dict_set k (row_get r k) props) [] (keep_cols cfg).

(** The loop over the zoom levels: the feature is appended to the bucket
    of its tile at every zoom of the range. *)
Definition absorb_at (f : feature) (lon lat : float) (z : Z) : M unit :=
  t <- lift (lonlat_to_tile lon lat z) ;;
  modify (fun w => set_buckets (bucket_append (z, t.1, t.2) f (buckets w)) w).

Definition absorb (f : feature) (lon lat : float) : M unit :=
  for_each (absorb_at f lon lat) (Py.range_incl (min_zoom cfg) (max_zoom cfg)).

(** [rows_seen % args.batch == 0]. *)
Definition batch_boundary : M bool :=
  w <- get ;;
  if batch cfg =? 0 then raise ZeroDivisionError
  else ret (rows_seen w mod batch cfg =? 0).

(** The body of [for row in reader]. *)
Definition process_row (r : row) : M unit :=
  modify count_row >>
  match read_coord r (lat_col cfg) with
  | None => ret tt
  | Some lat =>
      match read_coord r (lon_col cfg) with
      | None => ret tt
      | Some lon =>
          if negb (valid_coords lat lon) then ret tt
          else
            absorb (Feature (lon, lat) (row_props r)) lon lat >>
            b <- batch_boundary ;;
            if b then flush_buckets else ret tt
      end
  end.

(** [main] after the option parsing: the row loop, the final flush, and the
    number printed by the closing message, [rows_seen]. *)
Definition main (rows : list row) : M Z :=
  for_each process_row rows >>
  flush_buckets >>
  w <- get ;;
  ret (rows_seen w).

End Driver.

(** The state in which [main] starts over the tile directory [d]. *)
Definition init_world (d : gmap key tile_file) : world := World [] 0 d [].

(** ** Sample values of the runtime functions

    [float] on the texts and [math.sin], [math.log] on the arguments that the
    examples below use, as CPython computes them; the value at 0 and at 1 is
    exact. *)

Definition sample_float (s : string) : option float :=
  if decide (s = "0"%string) then Some 0%float
  else if decide (s = "8.5"%string) then Some 8.5%float
  else if decide (s = "47.0"%string) then Some 47.0%float
  else if decide (s = "8.51"%string) then Some 8.51%float
  else if decide (s = "47.01"%string) then Some 47.01%float
  else if decide (s = "10"%string) then Some 10%float
  else if decide (s = "180"%string) then Some 180%float
  else if decide (s = "200"%string) then Some 200%float
  else None.

Definition sample_sin (x : float) : res float :=
  if (x =? 0)%float then Ok x
  else if (x =? 0.8203047484373349)%float then Ok 0.7313537016191705%float
  else if (x =? 0.8204792813625343)%float then Ok 0.7314727216481752%float
  else if (x =? 1.484422229748708)%float then Ok 0.9962720762210412%float
  else if (x =? -1.484422229748708)%float then Ok (-0.9962720762210412)%float
  else Raise ValueError.

Definition sample_log (x : float) : res float :=
  if (x =? 1)%float then Ok 0%float
  else if (x =? 6.4447331381608155)%float then Ok 1.863263229507647%float
  else if (x =? 6.448032886177014)%float then Ok 1.863775105404878%float
  else if (x =? 535.4916555666787)%float then Ok 6.283185307257859%float
  else if (x =? 0.0018674427315618206)%float then Ok (-6.283185307257859)%float
  else Raise ValueError.

Definition sample_runtime : runtime := Runtime sample_sin sample_log sample_float.

Definition mk_row (lat lon : string) : row :=
  <["latitude"%string := Some lat]> (<["longitude"%string := Some lon]> ∅).

(** The end-to-end scenario: zoom 6 only, two valid rows and one whose
    longitude is 200. *)
Definition cfg66 : config :=
  Config "latitude" "longitude" 6 6 [] 200000.

Definition three_rows : list row :=
  [mk_row "47.0" "8.5"; mk_row "47.01" "8.51"; mk_row "10" "200"].


(** ** Specification vocabulary *)

(** The features of the tile of [k] in the directory [d]. *)
Definition tile_features (d : gmap key tile_file) (k : key) : list feature :=
  match d !! k with
  | Some (FeatureCollection l) => l
  | _ => []
  end.

(** The features buffered for [k]: the lists of the items of key [k], in the
    order of the items. *)
Fixpoint bucket_feats (b : list (key * list feature)) (k : key) : list feature :=
  match b with
  | [] => []
  | (k', l) :: b' => (if decide (k = k') then l else []) ++ bucket_feats b' k
  end.

(** The tile file that merging the features [l] into the file [o] leaves:
    nothing is written for an empty [l], and an unreadable file stays. *)
Definition merge_tile (o : option tile_file) (l : list feature) : option tile_file :=
  match l, o with
  | [], _ => o
  | _ :: _, None => Some (FeatureCollection l)
  | _ :: _, Some (FeatureCollection old) => Some (FeatureCollection (old ++ l))
  | _ :: _, Some Unreadable => Some Unreadable
  end.

(** A bucket dictionary has one item per key. *)
Definition bucket_wf (b : list (key * list feature)) : Prop := NoDup (map fst b).

(** No file of the directory is unreadable. *)
Definition disk_ok (d : gmap key tile_file) : Prop :=
  forall k, d !! k <> Some Unreadable.

(** What one pass of the loop of [flush_buckets] over [items] does to the
    directory [d]: [d'] is the directory left and [r] the outcome. *)
Record flush_loop_post (items : list (key * list feature))
    (d : gmap key tile_file) (r : res unit) (d' : gmap key tile_file) : Prop := {
  flp_outcome : r = Ok tt \/ r = Raise CorruptTile;
  flp_unreadable : forall k, d !! k = Some Unreadable -> d' !! k = Some Unreadable;
  flp_extends : forall k l, d !! k = Some (FeatureCollection l) ->
                  exists l', d' !! k = Some (FeatureCollection (l ++ l'));
  flp_merged : r = Ok tt ->
                  forall k, d' !! k = merge_tile (d !! k) (bucket_feats items k);
  flp_ok_iff : r = Ok tt <->
                  forall k, bucket_feats items k <> [] -> d !! k <> Some Unreadable
}.

(** The number of features buffered in a bucket dictionary. *)
Definition bucket_total (b : list (key * list feature)) : Z :=
  foldr (fun it n => Z.of_nat (length it.2) + n) 0 b.

(** The features that a list of insertions holds for the key [k]. *)
Fixpoint feats_of (ins : list (key * feature)) (k : key) : list feature :=
  match ins with
  | [] => []
  | (k', f) :: ins' => (if decide (k = k') then [f] else []) ++ feats_of ins' k
  end.

(** The state [w'] is a continuation of [w] that has taken the insertions
    [a] in: every tile, counted with what is still buffered for it, is what
    it was in [w] followed by its features of [a]. *)
Definition absorbed (w : world) (a : list (key * feature)) (w' : world) : Prop :=
  bucket_wf (buckets w') /\
  disk_ok (disk w') /\
  forall k,
    merge_tile (disk w' !! k) (bucket_feats (buckets w') k) =
    merge_tile (merge_tile (disk w !! k) (bucket_feats (buckets w) k)) (feats_of a k).

Section Plan.

Context {rt : runtime}.
Variable cfg : config.

(** The tile keys of a coordinate at the zoom levels [zs], as the mapper
    gives them. *)
Fixpoint keys_at (lon lat : float) (zs : list Z) : res (list key) :=
  match zs with
  | [] => Ok []
  | z :: zs' =>
      let? t := lonlat_to_tile lon lat z in
      let? ks := keys_at lon lat zs' in
      Ok ((z, t.1, t.2) :: ks)
  end.

Definition tile_keys (lon lat : float) : res (list key) :=
  keys_at lon lat (Py.range_incl (min_zoom cfg) (max_zoom cfg)).

(** The coordinates [(lat, lon)] of a row that the driver accepts; [None]
    for a row that it skips. *)
Definition accepted (r : row) : option (float * float) :=
  match read_coord r (lat_col cfg), read_coord r (lon_col cfg) with
  | Some lat, Some lon =>
      if valid_coords lat lon then Some (lat, lon) else None
  | _, _ => None
  end.

(** The insertions that a row asks for, and those of a whole input. *)
Definition row_plan (r : row) : res (list (key * feature)) :=
  match accepted r with
  | None => Ok []
  | Some (lat, lon) =>
      let? ks := tile_keys lon lat in
      Ok (map (fun k => (k, Feature (lon, lat) (row_props cfg r))) ks)
  end.

Fixpoint plan (rows : list row) : res (list (key * feature)) :=
  match rows with
  | [] => Ok []
  | r :: rows' =>
      let? a := row_plan r in
      let? b := plan rows' in
      Ok (a ++ b)
  end.

(** The values of [rows_seen] at which the row loop calls [flush_buckets],
    when [n] rows were read before [rows]: the rows that are accepted and
    whose number is a multiple of the batch size. *)
Fixpoint flush_points (rows : list row) (n : Z) : list Z :=
  match rows with
  | [] => []
  | r :: rows' =>
      match accepted r with
      | Some _ => if (n + 1) mod batch cfg =? 0 then [n + 1] else []
      | None => []
      end ++ flush_points rows' (n + 1)
  end.

(** The flush calls as the specification words them: a flush whenever the
    count [a] of accepted records reaches a multiple of the batch size. *)
Fixpoint spec_flush_points (rows : list row) (n a : Z) : list Z :=
  match rows with
  | [] => []
  | r :: rows' =>
      match accepted r with
      | Some _ =>
          (if (a + 1) mod batch cfg =? 0 then [n + 1] else [])
          ++ spec_flush_points rows' (n + 1) (a + 1)
      | None => spec_flush_points rows' (n + 1) a
      end
  end.

(** The coordinates of a row are unusable: a coordinate column is missing,
    empty or no number ([read_coord] is [None] in these cases), or the two
    numbers are not within [-90, 90] and [-180, 180]. *)
Definition unusable_coords (r : row) : Prop :=
  read_coord r (lat_col cfg) = None \/
  read_coord r (lon_col cfg) = None \/
  exists lat lon,
    read_coord r (lat_col cfg) = Some lat /\
    read_coord r (lon_col cfg) = Some lon /\
    valid_coords lat lon = false.

(** The number of rows of an input that the driver accepts. *)
Definition accepted_count (rows : list row) : Z :=
  Z.of_nat (length (filter (fun r => is_Some (accepted r)) rows)).

End Plan.

(** The configuration [cfg] with the batch size [b]. *)
Definition with_batch (b : Z) (cfg : config) : config :=
  Config (lat_col cfg) (lon_col cfg) (min_zoom cfg) (max_zoom cfg) (keep_cols cfg) b.

(** One directory extends another: unreadable files stay as they are and
    readable ones keep their features as a prefix. *)
Definition disk_extends (d d' : gmap key tile_file) : Prop :=
  (forall k, d !! k = Some Unreadable -> d' !! k = Some Unreadable) /\
  (forall k l, d !! k = Some (FeatureCollection l) ->
     exists l', d' !! k = Some (FeatureCollection (l ++ l'))).

(** Example inputs. *)
Definition cfg57 : config :=
  Config "latitude" "longitude" 5 7 [] 200000.

Definition mixed_rows : list row :=
  [mk_row "10" "200"; mk_row "47.0" "8.5"; mk_row "47.01" "8.51"].

Definition zurich : feature := Feature (8.5%float, 47.0%float) [].

(** Eight rows, in turn accepted and skipped. *)
Definition alternating_rows : list row :=
  [mk_row "47.0" "8.5"; mk_row "10" "200"; mk_row "47.01" "8.51"; mk_row "10" "200";
   mk_row "47.0" "8.5"; mk_row "10" "200"; mk_row "47.01" "8.51"; mk_row "10" "200"].

Definition cfg_batch2 : config := with_batch 2 cfg66.

Definition tile_6_33_13 : key := (6, 33, 13).

Definition corrupt_dir : gmap key tile_file := {[ tile_6_33_13 := Unreadable ]}.

Definition stuck_world : world := World [(tile_6_33_13, [zurich])] 1 corrupt_dir [].

(** The mapper's [x] at longitude 180 is [2 ^ z]. *)
Definition x_at_180_is_pow2 (z : Z) : bool :=
  match tile_x 180 z with
  | Ok x => x =? 2 ^ z
  | Raise _ => false
  end.

(** ** Tile paths and the column option

    A string is taken as a sequence of characters with code points below
    256. *)

Module Path.

(** [str(n)] of an integer: its decimal digits, after a minus sign when it
    is negative. *)
Definition str (n : Z) : string := pretty n.

Definition starts_with_sep (s : string) : bool :=
  match s with
  | String c _ => Ascii.eqb c "/"%char
  | EmptyString => false
  end.

Fixpoint ends_with_sep (s : string) : bool :=
  match s with
  | EmptyString => false
  | String c s' =>
      match s' with
      | EmptyString => Ascii.eqb c "/"%char
      | String _ _ => ends_with_sep s'
      end
  end.

(** One round of the loop of [os.path.join] on a POSIX system: a component
    that starts with the separator replaces the path; otherwise it is
    appended, after a separator unless the path is empty or ends with
    one. *)
Definition join (path b : string) : string :=
  if starts_with_sep b then b
  else if (String.length path =? 0)%nat || ends_with_sep path then path +:+ b
  else path +:+ "/" +:+ b.

End Path.

(** The file of a tile: [os.path.join(os.path.join(out, str(z), str(x)),
    f"{y}.geojson.gz")]. *)
Definition tile_path (out : string) (k : key) : string :=
  let '(z, x, y) := k in
  let folder := Path.join (Path.join out (Path.str z)) (Path.str x) in
  Path.join folder (Path.str y +:+ ".geojson.gz").

(** The string [s] has the character [c]. *)
Fixpoint has_char (c : ascii) (s : string) : bool :=
  match s with
  | EmptyString => false
  | String a s' => Ascii.eqb a c || has_char c s'
  end.

Module Str.

(** The white space that [str.strip()] removes, among the characters below
    256: tab to carriage return, the four separators 28 to 31, the space,
    NEL and the no-break space. *)
Definition is_space (c : ascii) : bool :=
  let n := N_of_ascii c in
  ((9 <=? n) && (n <=? 13) || (28 <=? n) && (n <=? 32)
   || (n =? 133) || (n =? 160))%N.

Fixpoint lstrip (s : string) : string :=
  match s with
  | EmptyString => EmptyString
  | String c s' => if is_space c then lstrip s' else s
  end.

Fixpoint rstrip (s : string) : string :=
  match s with
  | EmptyString => EmptyString
  | String c s' =>
      match rstrip s' with
      | EmptyString => if is_space c then EmptyString else String c EmptyString
      | String d t => String c (String d t)
      end
  end.

(** [s.strip()]. *)
Definition strip (s : string) : string := rstrip (lstrip s).

(** [s.split(",")]. *)
Fixpoint split_comma (s : string) : list string :=
  match s with
  | EmptyString => [EmptyString]
  | String c s' =>
      if Ascii.eqb c ","%char then EmptyString :: split_comma s'
      else
        match split_comma s' with
        | h :: t => String c h :: t
        | [] => [String c EmptyString]
        end
  end.

(** [",".join(l)]. *)
Fixpoint join_comma (l : list string) : string :=
  match l with
  | [] => EmptyString
  | a :: l' =>
      match l' with
      | [] => a
      | _ :: _ => a +:+ String ","%char (join_comma l')
      end
  end.

End Str.

(** [[c.strip() for c in args.keep_cols.split(",") if c.strip()]]. *)
Definition parse_keep_cols (s : string) : list string :=
  map Str.strip (filter (fun c => Str.strip c <> EmptyString) (Str.split_comma s)).

(** A column name as [parse_keep_cols] gives them: not empty, without comma,
    and without white space at either end. *)
Definition clean_col (c : string) : Prop :=
  c <> EmptyString /\ has_char ","%char c = false /\ Str.strip c = c.

(** The default of the option [--keep-cols]. *)
Definition default_keep_cols : string :=
  "observation_uuid,taxon_id,quality_grade,observed_on,observer_id,positional_accuracy".

(** * Properties *)

(** ** The latitude clamp *)

Lemma clamp_lat_above (lat : float) :
  (85.05112878 <? lat)%float = true -> clamp_lat lat = 85.05112878%float.
Proof.
  intros H. unfold clamp_lat, Py.min. rewrite H. reflexivity.
Qed.

Lemma clamp_lat_below (lat : float) :
  (lat <? - 85.05112878)%float = true -> clamp_lat lat = (- 85.05112878)%float.
Proof.
  intros H. unfold clamp_lat, Py.min, Py.max.
  assert (Hc : (85.05112878 <? lat)%float = false).
  { revert H. rewrite (ltb_spec lat), (ltb_spec 85.05112878%float).
    unfold SFltb.
    replace (Prim2SF (- 85.05112878)%float)
      with (S754_finite true 5984941123141376 (-46)) by (vm_compute; reflexivity).
    replace (Prim2SF 85.05112878%float)
      with (S754_finite false 5984941123141376 (-46)) by (vm_compute; reflexivity).
    destruct (Prim2SF lat) as [s | s | | s m e]; cbn [SFcompare];
      try discriminate; try reflexivity; destruct s; try reflexivity;
      discriminate. }
  rewrite Hc, H. reflexivity.
Qed.

(** ** The tile store writer *)

Lemma merge_tile_nil (o : option tile_file) : merge_tile o [] = o.
Proof. reflexivity. Qed.

Lemma merge_tile_app (o : option tile_file) (l1 l2 : list feature) :
  merge_tile (merge_tile o l1) l2 = merge_tile o (l1 ++ l2).
Proof.
  destruct l1 as [|a l1]; [reflexivity|].
  destruct l2 as [|b l2].
  - rewrite app_nil_r. reflexivity.
  - destruct o as [[|old]|]; cbn; try reflexivity.
    rewrite <- app_assoc. reflexivity.
Qed.

Lemma merge_tile_ok (o : option tile_file) (l : list feature) :
  o <> Some Unreadable -> merge_tile o l <> Some Unreadable.
Proof. destruct l, o as [[|old]|]; cbn; congruence. Qed.

Lemma write_tile_eq (k : key) (feats : list feature) (w : world) :
  write_tile (k, feats) w =
  match feats, disk w !! k with
  | [], _ => (Ok tt, w)
  | _ :: _, Some Unreadable => (Raise CorruptTile, w)
  | _ :: _, Some (FeatureCollection old) =>
      (Ok tt, set_disk (<[k := FeatureCollection (old ++ feats)]> (disk w)) w)
  | _ :: _, None =>
      (Ok tt, set_disk (<[k := FeatureCollection feats]> (disk w)) w)
  end.
Proof.
  destruct feats as [|f feats]; [reflexivity|].
  unfold write_tile, bind, get. cbn.
  destruct (disk w !! k) as [[|old]|]; reflexivity.
Qed.

Lemma merge_tile_unreadable_iff (o : option tile_file) (l : list feature) :
  merge_tile o l = Some Unreadable <-> o = Some Unreadable.
Proof. destruct l, o as [[|old]|]; cbn; split; congruence. Qed.

Lemma merge_tile_extends (old l : list feature) :
  exists l', merge_tile (Some (FeatureCollection old)) l
             = Some (FeatureCollection (old ++ l')).
Proof.
  destruct l as [|f l].
  - exists []. rewrite app_nil_r. reflexivity.
  - exists (f :: l). reflexivity.
Qed.

Lemma set_disk_id (w : world) : set_disk (disk w) w = w.
Proof. destruct w; reflexivity. Qed.

(** Writing one item succeeds unless it has features for an unreadable
    file; the file of the item becomes the merge, the others stay. *)
Lemma write_tile_ok (k : key) (feats : list feature) (w : world) :
  (feats <> [] -> disk w !! k <> Some Unreadable) ->
  exists d1,
    write_tile (k, feats) w = (Ok tt, set_disk d1 w) /\
    forall k', d1 !! k' =
      if decide (k' = k) then merge_tile (disk w !! k) feats else disk w !! k'.
Proof.
  intros H. rewrite write_tile_eq. destruct feats as [|f feats].
  - exists (disk w). rewrite set_disk_id. split; [reflexivity|].
    intros k'. destruct (decide (k' = k)) as [->|]; reflexivity.
  - destruct (disk w !! k) as [[|old]|] eqn:Ek.
    + exfalso. apply H; [discriminate | reflexivity].
    + eexists. split; [reflexivity|]. intros k'.
      destruct (decide (k' = k)) as [->|Hne].
      * rewrite lookup_insert_eq. reflexivity.
      * rewrite lookup_insert_ne by congruence. reflexivity.
    + eexists. split; [reflexivity|]. intros k'.
      destruct (decide (k' = k)) as [->|Hne].
      * rewrite lookup_insert_eq. reflexivity.
      * rewrite lookup_insert_ne by congruence. reflexivity.
Qed.

Lemma write_tile_raise (k : key) (feats : list feature) (w : world) :
  feats <> [] -> disk w !! k = Some Unreadable ->
  write_tile (k, feats) w = (Raise CorruptTile, w).
Proof.
  intros H E. rewrite write_tile_eq, E. destruct feats; [congruence | reflexivity].
Qed.

Lemma flush_loop_spec (items : list (key * list feature)) (w : world) :
  exists r d',
    for_each write_tile items w = (r, set_disk d' w) /\
    flush_loop_post items (disk w) r d'.
Proof.
  revert w. induction items as [|[k feats] items IH]; intros w.
  - exists (Ok tt), (disk w). rewrite set_disk_id. split; [reflexivity|].
    constructor; auto.
    + intros k l H. exists []. rewrite app_nil_r. exact H.
    + split; [|reflexivity]. intros _ k H. exfalso. apply H. reflexivity.
  - cbn [for_each]. unfold bind at 1.
    assert (Hcase : (feats <> [] /\ disk w !! k = Some Unreadable) \/
                    (feats <> [] -> disk w !! k <> Some Unreadable)).
    { destruct feats; [right; congruence|].
      destruct (disk w !! k) as [[|old]|];
        [left; split; [discriminate | reflexivity] | right; discriminate..]. }
    destruct Hcase as [[Hf Hu]|Hn].
    + rewrite (write_tile_raise k feats w Hf Hu).
      exists (Raise CorruptTile), (disk w). rewrite set_disk_id.
      split; [reflexivity|]. constructor; auto; try discriminate.
      * intros k' l H. exists []. rewrite app_nil_r. exact H.
      * split; [discriminate|]. intros H. exfalso. apply (H k); [|exact Hu].
        cbn. rewrite decide_True by reflexivity.
        destruct feats; [congruence | discriminate].
    + destruct (write_tile_ok k feats w) as (d1 & E1 & Hd1).
      { exact Hn. }
      rewrite E1.
      destruct (IH (set_disk d1 w)) as (r & d' & E & [Ho HU HP HM HI]).
      cbn [disk set_disk] in *.
      exists r, d'. split; [exact E|].
      assert (Hsame : forall k', d1 !! k' = Some Unreadable <-> disk w !! k' = Some Unreadable).
      { intros k'. rewrite Hd1. destruct (decide (k' = k)) as [->|]; [|reflexivity].
        apply merge_tile_unreadable_iff. }
      constructor.
      * exact Ho.
      * intros k' H. apply HU, Hsame, H.
      * intros k' l H.
        assert (exists l1, d1 !! k' = Some (FeatureCollection (l ++ l1))) as [l1 Hl1].
        { rewrite Hd1. destruct (decide (k' = k)) as [->|].
          - rewrite H. apply merge_tile_extends.
          - exists []. rewrite app_nil_r. exact H. }
        destruct (HP k' _ Hl1) as [l2 Hl2]. exists (l1 ++ l2).
        rewrite Hl2, app_assoc. reflexivity.
      * intros Hok k'. rewrite (HM Hok k'), Hd1. cbn [bucket_feats].
        destruct (decide (k' = k)) as [->|].
        -- apply merge_tile_app.
        -- reflexivity.
      * rewrite HI. split; intros H k' Hne Hu.
        -- destruct (bucket_feats items k') as [|g l] eqn:Hb.
           ++ cbn [bucket_feats] in Hne. rewrite Hb, app_nil_r in Hne.
              destruct (decide (k' = k)) as [->|]; [|congruence].
              exact (Hn Hne Hu).
           ++ apply (H k'); [rewrite Hb; discriminate|]. apply Hsame, Hu.
        -- apply Hsame in Hu. apply (H k'); [|exact Hu].
           cbn [bucket_feats]. intros Happ. apply app_eq_nil in Happ. tauto.
Qed.

(** [flush_buckets] logs the call, runs the loop and clears the buckets only
    when the loop has ended without an exception. *)
Lemma flush_buckets_spec (w : world) :
  exists r d',
    flush_buckets w =
      (r, World (match r with Ok _ => [] | Raise _ => buckets w end)
                (rows_seen w) d' (flush_log w ++ [rows_seen w])) /\
    flush_loop_post (buckets w) (disk w) r d'.
Proof.
  destruct (flush_loop_spec (buckets w) (log_flush w)) as (r & d' & E & Hpost).
  exists r, d'. split; [|exact Hpost].
  unfold flush_buckets, bind, modify, get. cbn [buckets log_flush] in *.
  rewrite E. destruct r as [[]|e]; reflexivity.
Qed.

Lemma flush_buckets_ok (w : world) :
  (forall k, bucket_feats (buckets w) k <> [] -> disk w !! k <> Some Unreadable) ->
  exists d',
    flush_buckets w = (Ok tt, World [] (rows_seen w) d' (flush_log w ++ [rows_seen w])) /\
    forall k, d' !! k = merge_tile (disk w !! k) (bucket_feats (buckets w) k).
Proof.
  intros H. destruct (flush_buckets_spec w) as (r & d' & E & [Ho HU HP HM HI]).
  apply HI in H. subst r. exists d'. split; [exact E | exact (HM eq_refl)].
Qed.

Lemma flush_buckets_raise (w : world) (k : key) :
  bucket_feats (buckets w) k <> [] -> disk w !! k = Some Unreadable ->
  exists d',
    flush_buckets w =
      (Raise CorruptTile,
       World (buckets w) (rows_seen w) d' (flush_log w ++ [rows_seen w])) /\
    (forall k', disk w !! k' = Some Unreadable -> d' !! k' = Some Unreadable) /\
    (forall k' l, disk w !! k' = Some (FeatureCollection l) ->
       exists l', d' !! k' = Some (FeatureCollection (l ++ l'))).
Proof.
  intros Hb Hu. destruct (flush_buckets_spec w) as (r & d' & E & [Ho HU HP HM HI]).
  destruct Ho as [->| ->].
  - exfalso. exact (proj1 HI eq_refl k Hb Hu).
  - exists d'. auto.
Qed.

(** ** The record bucketer *)

Lemma bucket_feats_absent (b : list (key * list feature)) (k : key) :
  k ∉ map fst b -> bucket_feats b k = [].
Proof.
  induction b as [|[k' l] b IH]; [reflexivity|]. cbn. intros H.
  rewrite not_elem_of_cons in H. destruct H as [Hne Hb].
  rewrite decide_False by exact Hne. apply IH, Hb.
Qed.

Lemma bucket_append_keys (k : key) (f : feature) (b : list (key * list feature)) :
  map fst (bucket_append k f b) =
  if decide (k ∈ map fst b) then map fst b else map fst b ++ [k].
Proof.
  induction b as [|[k' l] b IH]; [reflexivity|]. cbn.
  destruct (decide (k = k')) as [->|Hne].
  - rewrite decide_True by left. reflexivity.
  - cbn. rewrite IH. destruct (decide (k ∈ map fst b)) as [Hin|Hnin].
    + rewrite decide_True by (right; exact Hin). reflexivity.
    + rewrite decide_False; [reflexivity|].
      rewrite not_elem_of_cons. split; assumption.
Qed.

Lemma bucket_append_wf (k : key) (f : feature) (b : list (key * list feature)) :
  bucket_wf b -> bucket_wf (bucket_append k f b).
Proof.
  unfold bucket_wf. intros H. rewrite bucket_append_keys.
  destruct (decide (k ∈ map fst b)) as [Hin|Hnin]; [exact H|].
  apply NoDup_app. split; [exact H|]. split.
  - intros x Hx Hk. apply list_elem_of_singleton in Hk. subst x. exact (Hnin Hx).
  - apply NoDup_singleton.
Qed.

Lemma bucket_feats_append (k k' : key) (f : feature) (b : list (key * list feature)) :
  bucket_wf b ->
  bucket_feats (bucket_append k f b) k' =
  bucket_feats b k' ++ (if decide (k' = k) then [f] else []).
Proof.
  unfold bucket_wf. induction b as [|[k1 l] b IH]; intros Hwf.
  - cbn. rewrite app_nil_r. reflexivity.
  - cbn in Hwf. apply NoDup_cons in Hwf. destruct Hwf as [Hnin Hwf]. cbn.
    destruct (decide (k = k1)) as [->|Hne].
    + cbn. destruct (decide (k' = k1)) as [->|Hne'].
      * rewrite (bucket_feats_absent b k1 Hnin), !app_nil_r. reflexivity.
      * rewrite app_nil_r. reflexivity.
    + cbn. rewrite (IH Hwf), app_assoc. reflexivity.
Qed.

Lemma bucket_total_append (k : key) (f : feature) (b : list (key * list feature)) :
  bucket_total (bucket_append k f b) = bucket_total b + 1.
Proof.
  induction b as [|[k1 l] b IH]; [reflexivity|]. cbn.
  destruct (decide (k = k1)) as [->|Hne]; cbn.
  - rewrite length_app. cbn. fold (bucket_total b). lia.
  - fold (bucket_total (bucket_append k f b)) (bucket_total b). lia.
Qed.

(** Appending one feature to the buckets of the keys [ks], in turn. *)
Lemma bucket_appends_spec (f : feature) (ks : list key) (b : list (key * list feature)) :
  bucket_wf b ->
  let b' := foldl (fun b k => bucket_append k f b) b ks in
  bucket_wf b' /\
  bucket_total b' = bucket_total b + Z.of_nat (length ks) /\
  forall k, bucket_feats b' k = bucket_feats b k ++ feats_of (map (fun k => (k, f)) ks) k.
Proof.
  revert b. induction ks as [|k0 ks IH]; intros b Hwf;
    cbn [foldl map feats_of length]; cbv zeta.
  - split; [exact Hwf|]. split; [change (Z.of_nat 0) with 0; lia|].
    intros k. rewrite app_nil_r. reflexivity.
  - destruct (IH (bucket_append k0 f b) (bucket_append_wf k0 f b Hwf)) as (H1 & H2 & H3).
    split; [exact H1|]. split.
    + rewrite H2, bucket_total_append, Nat2Z.inj_succ. lia.
    + intros k. rewrite H3, bucket_feats_append by exact Hwf.
      rewrite <- app_assoc. reflexivity.
Qed.

Lemma feats_of_app (a b : list (key * feature)) (k : key) :
  feats_of (a ++ b) k = feats_of a k ++ feats_of b k.
Proof.
  induction a as [|[k' f] a IH]; [reflexivity|]. cbn.
  rewrite IH, app_assoc. reflexivity.
Qed.

Lemma feats_of_once (f : feature) (ks : list key) (k : key) :
  NoDup ks ->
  feats_of (map (fun k => (k, f)) ks) k = if decide (k ∈ ks) then [f] else [].
Proof.
  induction ks as [|k0 ks IH]; intros Hnd; [reflexivity|].
  apply NoDup_cons in Hnd. destruct Hnd as [Hnin Hnd]. cbn. rewrite (IH Hnd).
  destruct (decide (k = k0)) as [->|Hne].
  - rewrite decide_False by exact Hnin. rewrite decide_True by left. reflexivity.
  - destruct (decide (k ∈ ks)) as [Hin|Hn].
    + rewrite decide_True by (right; exact Hin). reflexivity.
    + rewrite decide_False; [reflexivity|]. rewrite not_elem_of_cons. tauto.
Qed.

Lemma range_incl_length (lo hi : Z) :
  length (Py.range_incl lo hi) = Z.to_nat (hi + 1 - lo).
Proof. unfold Py.range_incl. rewrite length_map, length_seq. reflexivity. Qed.

Lemma range_incl_elem (lo hi z : Z) : z ∈ Py.range_incl lo hi <-> lo <= z <= hi.
Proof.
  unfold Py.range_incl. rewrite list_elem_of_fmap. split.
  - intros (i & -> & Hi). apply elem_of_seq in Hi. lia.
  - intros H. exists (Z.to_nat (z - lo)). split; [lia|]. apply elem_of_seq. lia.
Qed.

Lemma range_incl_NoDup (lo hi : Z) : NoDup (Py.range_incl lo hi).
Proof.
  unfold Py.range_incl. apply NoDup_fmap_2; [|apply NoDup_seq].
  intros i j H. lia.
Qed.

Section DriverProperties.

Context {rt : runtime}.
Variable cfg : config.

Lemma keys_at_spec (lon lat : float) (zs : list Z) (ks : list key) :
  keys_at lon lat zs = Ok ks ->
  map (fun k => k.1.1) ks = zs /\
  Forall (fun k => lonlat_to_tile lon lat k.1.1 = Ok (k.1.2, k.2)) ks.
Proof.
  revert ks. induction zs as [|z zs IH]; intros ks; cbn.
  - intros [= <-]. split; constructor.
  - destruct (lonlat_to_tile lon lat z) as [[x y]|e] eqn:Et; cbn; [|discriminate].
    destruct (keys_at lon lat zs) as [ks'|e] eqn:Ek; cbn; [|discriminate].
    intros [= <-]. destruct (IH ks' eq_refl) as [H1 H2]. split.
    + cbn. rewrite H1. reflexivity.
    + constructor; [exact Et | exact H2].
Qed.

Lemma absorb_loop_ok (f : feature) (lon lat : float) (zs : list Z)
    (ks : list key) (w : world) :
  keys_at lon lat zs = Ok ks ->
  for_each (absorb_at f lon lat) zs w =
  (Ok tt, set_buckets (foldl (fun b k => bucket_append k f b) (buckets w) ks) w).
Proof.
  revert ks w. induction zs as [|z zs IH]; intros ks w; cbn [keys_at for_each].
  - intros [= <-]. destruct w; reflexivity.
  - destruct (lonlat_to_tile lon lat z) as [[x y]|e] eqn:Et; cbn; [|discriminate].
    destruct (keys_at lon lat zs) as [ks'|e] eqn:Ek; cbn; [|discriminate].
    intros [= <-]. unfold bind at 1, absorb_at, bind, lift, modify.
    rewrite Et. rewrite (IH ks' _ eq_refl). reflexivity.
Qed.

Lemma tile_keys_spec (lon lat : float) (ks : list key) :
  tile_keys cfg lon lat = Ok ks ->
  map (fun k => k.1.1) ks = Py.range_incl (min_zoom cfg) (max_zoom cfg) /\
  Forall (fun k => lonlat_to_tile lon lat k.1.1 = Ok (k.1.2, k.2)) ks /\
  NoDup ks /\
  length ks = Z.to_nat (max_zoom cfg + 1 - min_zoom cfg).
Proof.
  intros H. destruct (keys_at_spec _ _ _ _ H) as [Hz Hk].
  split; [exact Hz|]. split; [exact Hk|]. split.
  - pose proof (range_incl_NoDup (min_zoom cfg) (max_zoom cfg)) as Hnd.
    rewrite <- Hz in Hnd. exact (NoDup_fmap_1 _ ks Hnd).
  - rewrite <- range_incl_length, <- Hz, length_map. reflexivity.
Qed.

Lemma absorb_ok (f : feature) (lon lat : float) (ks : list key) (w : world) :
  tile_keys cfg lon lat = Ok ks ->
  absorb cfg f lon lat w =
  (Ok tt, set_buckets (foldl (fun b k => bucket_append k f b) (buckets w) ks) w).
Proof. apply absorb_loop_ok. Qed.

(** C2: absorbing a record whose tile the mapper gives at every zoom of the
    range [min_zoom..max_zoom] makes [max_zoom - min_zoom + 1] bucket
    insertions: [ks] lists one key per zoom level of the range, each the
    mapper's tile of the coordinates at that zoom; the number of buffered
    features grows by the number of zoom levels; and the bucket of a key
    receives the feature, once and at its end, exactly when the key is one
    of [ks]. *)
Theorem absorb_one_insertion_per_zoom (f : feature) (lon lat : float)
    (ks : list key) (w : world) :
  bucket_wf (buckets w) ->
  min_zoom cfg <= max_zoom cfg ->
  tile_keys cfg lon lat = Ok ks ->
  exists b',
    absorb cfg f lon lat w = (Ok tt, set_buckets b' w) /\
    map (fun k => k.1.1) ks = Py.range_incl (min_zoom cfg) (max_zoom cfg) /\
    Forall (fun k => lonlat_to_tile lon lat k.1.1 = Ok (k.1.2, k.2)) ks /\
    Z.of_nat (length ks) = max_zoom cfg - min_zoom cfg + 1 /\
    bucket_total b' = bucket_total (buckets w) + (max_zoom cfg - min_zoom cfg + 1) /\
    forall k, bucket_feats b' k =
              bucket_feats (buckets w) k ++ (if decide (k ∈ ks) then [f] else []).
Proof.
  intros Hwf Hz Hks.
  destruct (tile_keys_spec lon lat ks Hks) as (Hr & Hm & Hnd & Hlen).
  destruct (bucket_appends_spec f ks (buckets w) Hwf) as (_ & Ht & Hf).
  eexists. split; [apply absorb_ok, Hks|].
  split; [exact Hr|]. split; [exact Hm|].
  assert (Hl : Z.of_nat (length ks) = max_zoom cfg - min_zoom cfg + 1) by lia.
  split; [exact Hl|]. split.
  - rewrite Ht, Hl. reflexivity.
  - intros k. rewrite Hf, feats_of_once by exact Hnd. reflexivity.
Qed.

(** ** The row loop *)

Lemma process_row_skip (r : row) (w : world) :
  accepted cfg r = None -> process_row cfg r w = (Ok tt, count_row w).
Proof.
  unfold accepted, process_row, bind, modify. cbn.
  destruct (read_coord r (lat_col cfg)) as [lat|]; [|reflexivity].
  destruct (read_coord r (lon_col cfg)) as [lon|]; [|reflexivity].
  destruct (valid_coords lat lon); [discriminate | reflexivity].
Qed.

Lemma process_row_accept (r : row) (lat lon : float) (w : world) :
  accepted cfg r = Some (lat, lon) ->
  process_row cfg r w =
  (absorb cfg (Feature (lon, lat) (row_props cfg r)) lon lat >>
   b <- batch_boundary cfg ;;
   if b then flush_buckets else ret tt) (count_row w).
Proof.
  unfold accepted, process_row. unfold bind at 1, modify at 1.
  destruct (read_coord r (lat_col cfg)) as [lat'|]; [|discriminate].
  destruct (read_coord r (lon_col cfg)) as [lon'|]; [|discriminate].
  destruct (valid_coords lat' lon'); [|discriminate].
  intros [= -> ->]. reflexivity.
Qed.

Lemma process_row_spec (r : row) (a : list (key * feature)) (w : world) :
  batch cfg <> 0 ->
  row_plan cfg r = Ok a ->
  bucket_wf (buckets w) -> disk_ok (disk w) ->
  exists w',
    process_row cfg r w = (Ok tt, w') /\
    absorbed w a w' /\
    rows_seen w' = rows_seen w + 1 /\
    flush_log w' = flush_log w ++ flush_points cfg [r] (rows_seen w).
Proof.
  intros Hb Hplan Hwf Hok. unfold row_plan in Hplan. cbn [flush_points].
  destruct (accepted cfg r) as [[lat lon]|] eqn:Ea.
  - destruct (tile_keys cfg lon lat) as [ks|e] eqn:Eks; [|discriminate].
    cbn in Hplan. injection Hplan as <-.
    rewrite (process_row_accept r lat lon w Ea).
    set (f := Feature (lon, lat) (row_props cfg r)).
    unfold bind at 1. rewrite (absorb_ok f lon lat ks _ Eks).
    destruct (bucket_appends_spec f ks (buckets w) Hwf) as (Hwf1 & _ & Hf1).
    cbn [buckets count_row] in *.
    set (b1 := foldl (fun b k => bucket_append k f b) (buckets w) ks) in *.
    unfold bind at 1, batch_boundary, bind at 1, get.
    rewrite (proj2 (Z.eqb_neq _ _) Hb). cbn [ret set_buckets count_row rows_seen].
    destruct ((rows_seen w + 1) mod batch cfg =? 0).
    + destruct (flush_buckets_ok (set_buckets b1 (count_row w))) as (d' & E & Hd').
      { intros k _. apply Hok. }
      rewrite E. eexists. split; [reflexivity|].
      cbn [buckets disk rows_seen flush_log set_buckets count_row] in *.
      split; [|split; [reflexivity | cbn; rewrite ?app_nil_r; reflexivity]].
      split; [constructor|]. split.
      * intros k. rewrite Hd'. apply merge_tile_ok, Hok.
      * intros k. cbn [bucket_feats]. rewrite merge_tile_nil, Hd', Hf1.
        symmetry. apply merge_tile_app.
    + eexists. split; [reflexivity|]. cbn.
      split; [|split; [reflexivity | cbn; rewrite ?app_nil_r; reflexivity]].
      split; [exact Hwf1|]. split; [exact Hok|].
      intros k. rewrite Hf1. symmetry. apply merge_tile_app.
  - injection Hplan as <-. rewrite (process_row_skip r w Ea).
    eexists. split; [reflexivity|]. cbn.
    split; [|split; [reflexivity | cbn; rewrite ?app_nil_r; reflexivity]].
    split; [exact Hwf|]. split; [exact Hok|]. intros k. reflexivity.
Qed.

Lemma absorbed_trans (w w1 w2 : world) (a b : list (key * feature)) :
  absorbed w a w1 -> absorbed w1 b w2 -> absorbed w (a ++ b) w2.
Proof.
  intros (_ & _ & H1) (Hwf & Hok & H2). split; [exact Hwf|]. split; [exact Hok|].
  intros k. rewrite H2, H1, feats_of_app. apply merge_tile_app.
Qed.

Lemma flush_points_cons (r : row) (rows : list row) (n : Z) :
  flush_points cfg (r :: rows) n =
  flush_points cfg [r] n ++ flush_points cfg rows (n + 1).
Proof. cbn [flush_points]. rewrite app_nil_r. reflexivity. Qed.

(** The row loop, when no mapper call raises, the batch size is not zero and
    the directory has no unreadable file. *)
Lemma rows_spec (rows : list row) (ins : list (key * feature)) (w : world) :
  batch cfg <> 0 ->
  plan cfg rows = Ok ins ->
  bucket_wf (buckets w) -> disk_ok (disk w) ->
  exists w',
    for_each (process_row cfg) rows w = (Ok tt, w') /\
    absorbed w ins w' /\
    rows_seen w' = rows_seen w + Z.of_nat (length rows) /\
    flush_log w' = flush_log w ++ flush_points cfg rows (rows_seen w).
Proof.
  intros Hb. revert ins w. induction rows as [|r rows IH]; intros ins w Hplan Hwf Hok.
  - injection Hplan as <-. exists w. split; [reflexivity|].
    split; [|split; [cbn; lia | cbn; rewrite app_nil_r; reflexivity]].
    split; [exact Hwf|]. split; [exact Hok|]. intros k. reflexivity.
  - cbn [plan] in Hplan.
    destruct (row_plan cfg r) as [a|e] eqn:Ea; [|discriminate]. cbn in Hplan.
    destruct (plan cfg rows) as [b|e] eqn:Eb; [|discriminate]. cbn in Hplan.
    injection Hplan as <-.
    destruct (process_row_spec r a w Hb Ea Hwf Hok) as (w1 & E1 & Ha1 & Hn1 & Hl1).
    destruct (IH b w1 eq_refl (proj1 Ha1) (proj1 (proj2 Ha1)))
      as (w2 & E2 & Ha2 & Hn2 & Hl2).
    exists w2. cbn [for_each]. unfold bind. rewrite E1, E2.
    split; [reflexivity|]. split; [exact (absorbed_trans _ _ _ _ _ Ha1 Ha2)|].
    split.
    + rewrite Hn2, Hn1. cbn [length]. lia.
    + rewrite Hl2, Hl1, Hn1, (flush_points_cons r rows (rows_seen w)), app_assoc.
      reflexivity.
Qed.

(** A whole run over the directory [d]. *)
Lemma run_spec (rows : list row) (ins : list (key * feature))
    (d : gmap key tile_file) :
  batch cfg <> 0 ->
  plan cfg rows = Ok ins ->
  disk_ok d ->
  exists d',
    main cfg rows (init_world d) =
      (Ok (Z.of_nat (length rows)),
       World [] (Z.of_nat (length rows)) d'
             (flush_points cfg rows 0 ++ [Z.of_nat (length rows)])) /\
    disk_ok d' /\
    forall k, d' !! k = merge_tile (d !! k) (feats_of ins k).
Proof.
  intros Hb Hplan Hok.
  destruct (rows_spec rows ins (init_world d) Hb Hplan) as (w1 & E1 & Ha & Hn & Hl).
  { constructor. } { exact Hok. }
  destruct Ha as (Hwf1 & Hok1 & Hm). cbn [init_world buckets disk rows_seen flush_log] in *.
  destruct (flush_buckets_ok w1) as (d' & E2 & Hd').
  { intros k _. apply Hok1. }
  exists d'. unfold main, bind. rewrite E1, E2. cbn [get ret rows_seen].
  rewrite Hn, Hl. cbn [app]. split; [reflexivity|]. split.
  - intros k. rewrite Hd'. apply merge_tile_ok, Hok1.
  - intros k. rewrite Hd', Hm. reflexivity.
Qed.

End DriverProperties.

(** ** Merging into existing tiles *)

Lemma tile_features_merge (d : gmap key tile_file) (o : option tile_file)
    (l : list feature) (k : key) :
  d !! k = merge_tile o l -> o <> Some Unreadable ->
  tile_features d k =
  match o with Some (FeatureCollection old) => old | _ => [] end ++ l.
Proof.
  intros E Ho. unfold tile_features. rewrite E.
  destruct l as [|f l], o as [[|old]|]; cbn; try congruence.
  rewrite app_nil_r. reflexivity.
Qed.

Section Claims.

Context {rt : runtime}.
Variable cfg : config.

Lemma plan_with_batch (b : Z) (rows : list row) :
  plan (with_batch b cfg) rows = plan cfg rows.
Proof. reflexivity. Qed.

(** C7: over one input on which no mapper call raises, a run with the batch
    size [b1] and a run with the batch size [b2], each into an empty
    directory, end with the same number and leave the same directory [d]:
    the same tile files, each with the same features in the same order,
    namely the features of its key in the order of the input. *)
Theorem batch_size_does_not_change_tiles (b1 b2 : Z) (rows : list row)
    (ins : list (key * feature)) :
  b1 <> 0 -> b2 <> 0 ->
  plan cfg rows = Ok ins ->
  exists d fl1 fl2,
    let n := Z.of_nat (length rows) in
    main (with_batch b1 cfg) rows (init_world ∅) = (Ok n, World [] n d fl1) /\
    main (with_batch b2 cfg) rows (init_world ∅) = (Ok n, World [] n d fl2) /\
    forall k, d !! k = merge_tile None (feats_of ins k).
Proof.
  intros H1 H2 Hplan.
  assert (Hok : disk_ok (∅ : gmap key tile_file)).
  { intros k. rewrite lookup_empty. discriminate. }
  destruct (run_spec (with_batch b1 cfg) rows ins ∅ H1 Hplan Hok) as (d1 & E1 & _ & Hd1).
  destruct (run_spec (with_batch b2 cfg) rows ins ∅ H2 Hplan Hok) as (d2 & E2 & _ & Hd2).
  assert (d2 = d1) as ->.
  { apply map_eq. intros k. rewrite Hd1, Hd2. reflexivity. }
  exists d1. eexists. eexists. cbv zeta.
  split; [exact E1|]. split; [exact E2|].
  intros k. rewrite Hd1, lookup_empty. reflexivity.
Qed.


(** ** Skipped rows *)

Lemma unusable_not_accepted (r : row) :
  unusable_coords cfg r -> accepted cfg r = None.
Proof.
  unfold unusable_coords, accepted.
  intros [H|[H|(lat & lon & H1 & H2 & H3)]].
  - rewrite H. reflexivity.
  - rewrite H. destruct (read_coord r (lat_col cfg)); reflexivity.
  - rewrite H1, H2, H3. reflexivity.
Qed.

Lemma plan_without (r : row) (rows1 rows2 : list row) :
  row_plan cfg r = Ok [] ->
  plan cfg (rows1 ++ r :: rows2) = plan cfg (rows1 ++ rows2).
Proof.
  intros Hr. induction rows1 as [|r1 rows1 IH]; cbn [app plan].
  - rewrite Hr. cbn. destruct (plan cfg rows2); reflexivity.
  - rewrite IH. reflexivity.
Qed.

(** C6: a row whose coordinates are missing, not numeric or out of range is
    skipped without an exception: the step only counts the row and leaves the
    buckets and the directory as they are; the row asks for no insertion; and
    a run over an input with the row in it leaves the directory that the run
    over the input without the row leaves. *)
Theorem unusable_row_is_skipped (r : row) :
  unusable_coords cfg r ->
  (forall w,
     process_row cfg r w = (Ok tt, count_row w) /\
     buckets (count_row w) = buckets w /\
     disk (count_row w) = disk w) /\
  row_plan cfg r = Ok [] /\
  (forall (rows1 rows2 : list row) (ins : list (key * feature))
          (d : gmap key tile_file),
     batch cfg <> 0 ->
     plan cfg (rows1 ++ rows2) = Ok ins ->
     disk_ok d ->
     exists d' fl1 fl2,
       let n := Z.of_nat (length (rows1 ++ rows2)) in
       main cfg (rows1 ++ r :: rows2) (init_world d)
         = (Ok (n + 1), World [] (n + 1) d' fl1) /\
       main cfg (rows1 ++ rows2) (init_world d) = (Ok n, World [] n d' fl2)).
Proof.
  intros Hbad. pose proof (unusable_not_accepted r Hbad) as Hacc.
  assert (Hrow : row_plan cfg r = Ok []).
  { unfold row_plan. rewrite Hacc. reflexivity. }
  split; [|split; [exact Hrow|]].
  - intros w. split; [apply process_row_skip, Hacc|]. split; reflexivity.
  - intros rows1 rows2 ins d Hb Hplan Hok.
    pose proof Hplan as Hplan'. rewrite <- (plan_without r rows1 rows2 Hrow) in Hplan'.
    destruct (run_spec cfg _ ins d Hb Hplan' Hok) as (d1 & E1 & _ & Hd1).
    destruct (run_spec cfg _ ins d Hb Hplan Hok) as (d2 & E2 & _ & Hd2).
    assert (d2 = d1) as ->.
    { apply map_eq. intros k. rewrite Hd1, Hd2. reflexivity. }
    exists d1. eexists. eexists. cbv zeta. split; [|exact E2].
    rewrite E1. rewrite !length_app. cbn [length].
    replace (Z.of_nat (length rows1 + S (length rows2)))
      with (Z.of_nat (length rows1 + length rows2) + 1) by lia.
    reflexivity.
Qed.

(** ** Failing flushes *)

(** C10: when [flush_buckets] raises, the bucket dictionary is left as it
    was; it is emptied only by a flush that has ended without an exception,
    after every tile has been merged with its bucket. *)
Theorem failed_flush_keeps_buckets (w : world) (r : res unit) (w' : world) :
  flush_buckets w = (r, w') ->
  (forall e, r = Raise e -> buckets w' = buckets w) /\
  (r = Ok tt ->
     buckets w' = [] /\
     forall k, disk w' !! k =
               merge_tile (disk w !! k) (bucket_feats (buckets w) k)).
Proof.
  intros E. destruct (flush_buckets_spec w) as (r0 & d' & E0 & [Ho HU HP HM HI]).
  rewrite E0 in E. injection E as <- <-. split.
  - intros e ->. reflexivity.
  - intros ->. split; [reflexivity|]. exact (HM eq_refl).
Qed.

Lemma disk_extends_refl (d : gmap key tile_file) : disk_extends d d.
Proof.
  split; [auto|]. intros k l H. exists []. rewrite app_nil_r. exact H.
Qed.

Lemma disk_extends_trans (d1 d2 d3 : gmap key tile_file) :
  disk_extends d1 d2 -> disk_extends d2 d3 -> disk_extends d1 d3.
Proof.
  intros [U1 P1] [U2 P2]. split; [auto|].
  intros k l H. destruct (P1 k l H) as [l1 H1]. destruct (P2 k _ H1) as [l2 H2].
  exists (l1 ++ l2). rewrite H2, app_assoc. reflexivity.
Qed.

Lemma flush_buckets_extends (w : world) :
  exists r w',
    flush_buckets w = (r, w') /\
    disk_extends (disk w) (disk w') /\
    (r = Raise CorruptTile /\ buckets w' = buckets w \/
     r = Ok tt /\ buckets w' = [] /\
     forall k, disk w !! k = Some Unreadable -> bucket_feats (buckets w) k = []).
Proof.
  destruct (flush_buckets_spec w) as (r & d' & E & [Ho HU HP HM HI]).
  exists r. eexists. split; [exact E|]. cbn [disk buckets].
  split; [split; assumption|].
  destruct Ho as [->| ->]; [right | left; split; reflexivity].
  split; [reflexivity|]. split; [reflexivity|].
  intros k Hu. destruct (bucket_feats (buckets w) k) as [|f l] eqn:Hb; [reflexivity|].
  exfalso. apply (proj1 HI eq_refl k); [rewrite Hb; discriminate | exact Hu].
Qed.

(** A step of the row loop over a directory in which the file of [k0] is
    unreadable: it raises [CorruptTile], or it goes on with the features of
    [k0] still buffered. *)
Lemma process_row_corrupt (k0 : key) (r : row) (a : list (key * feature)) (w : world) :
  batch cfg <> 0 ->
  row_plan cfg r = Ok a ->
  bucket_wf (buckets w) ->
  disk w !! k0 = Some Unreadable ->
  exists o w',
    process_row cfg r w = (o, w') /\
    disk_extends (disk w) (disk w') /\
    (o = Raise CorruptTile \/
     o = Ok tt /\ bucket_wf (buckets w') /\
     bucket_feats (buckets w') k0 = bucket_feats (buckets w) k0 ++ feats_of a k0).
Proof.
  intros Hb Hplan Hwf Hu. unfold row_plan in Hplan.
  destruct (accepted cfg r) as [[lat lon]|] eqn:Ea.
  - destruct (tile_keys cfg lon lat) as [ks|e] eqn:Eks; [|discriminate].
    cbn in Hplan. injection Hplan as <-.
    rewrite (process_row_accept cfg r lat lon w Ea).
    set (f := Feature (lon, lat) (row_props cfg r)).
    unfold bind at 1. rewrite (absorb_ok cfg f lon lat ks _ Eks).
    destruct (bucket_appends_spec f ks (buckets w) Hwf) as (Hwf1 & _ & Hf1).
    cbn [buckets count_row] in *.
    set (b1 := foldl (fun b k => bucket_append k f b) (buckets w) ks) in *.
    unfold bind at 1, batch_boundary, bind at 1, get.
    rewrite (proj2 (Z.eqb_neq _ _) Hb). cbn [ret set_buckets count_row rows_seen].
    destruct ((rows_seen w + 1) mod batch cfg =? 0).
    + destruct (flush_buckets_extends (set_buckets b1 (count_row w)))
        as (o & w' & E & Hext & Hcase).
      rewrite E. exists o, w'. split; [reflexivity|].
      cbn [buckets disk set_buckets count_row] in *. split; [exact Hext|].
      destruct Hcase as [[-> _]|(-> & Hnil & Hnone)]; [left; reflexivity | right].
      split; [reflexivity|]. rewrite Hnil. split; [constructor|].
      rewrite <- Hf1, (Hnone k0 Hu). reflexivity.
    + eexists. eexists. split; [reflexivity|]. cbn [buckets disk].
      split; [apply disk_extends_refl|]. right.
      split; [reflexivity|]. split; [exact Hwf1 | apply Hf1].
  - injection Hplan as <-. rewrite (process_row_skip cfg r w Ea).
    eexists. eexists. split; [reflexivity|]. cbn [buckets disk count_row].
    split; [apply disk_extends_refl|]. right.
    split; [reflexivity|]. split; [exact Hwf|]. cbn. rewrite app_nil_r. reflexivity.
Qed.

Lemma rows_corrupt (k0 : key) (rows : list row) (ins : list (key * feature)) (w : world) :
  batch cfg <> 0 ->
  plan cfg rows = Ok ins ->
  bucket_wf (buckets w) ->
  disk w !! k0 = Some Unreadable ->
  exists o w',
    for_each (process_row cfg) rows w = (o, w') /\
    disk_extends (disk w) (disk w') /\
    (o = Raise CorruptTile \/
     o = Ok tt /\ bucket_wf (buckets w') /\
     bucket_feats (buckets w') k0 = bucket_feats (buckets w) k0 ++ feats_of ins k0).
Proof.
  intros Hb. revert ins w. induction rows as [|r rows IH]; intros ins w Hplan Hwf Hu.
  - injection Hplan as <-. exists (Ok tt), w. split; [reflexivity|].
    split; [apply disk_extends_refl|]. right.
    split; [reflexivity|]. split; [exact Hwf|]. cbn. rewrite app_nil_r. reflexivity.
  - cbn [plan] in Hplan.
    destruct (row_plan cfg r) as [a|e] eqn:Ea; [|discriminate]. cbn in Hplan.
    destruct (plan cfg rows) as [b|e] eqn:Eb; [|discriminate]. cbn in Hplan.
    injection Hplan as <-.
    destruct (process_row_corrupt k0 r a w Hb Ea Hwf Hu) as (o1 & w1 & E1 & X1 & C1).
    cbn [for_each]. unfold bind. rewrite E1.
    destruct C1 as [->|(-> & Hwf1 & Hf1)].
    + exists (Raise CorruptTile), w1. split; [reflexivity|]. split; [exact X1|].
      left. reflexivity.
    + destruct (IH b w1 eq_refl Hwf1 (proj1 X1 k0 Hu)) as (o2 & w2 & E2 & X2 & C2).
      exists o2, w2. split; [exact E2|].
      split; [exact (disk_extends_trans _ _ _ X1 X2)|].
      destruct C2 as [->|(-> & Hwf2 & Hf2)]; [left; reflexivity | right].
      split; [reflexivity|]. split; [exact Hwf2|].
      rewrite Hf2, Hf1, feats_of_app, app_assoc. reflexivity.
Qed.

(** C5: a flush that has features to merge into an unreadable tile file
    raises, keeps the buckets, leaves the unreadable file as it is and drops
    no feature of a readable file; and a run whose input has a record for a
    tile whose file is unreadable ends with that exception, the directory
    being extended in the same sense: the unreadable file is not replaced and
    no feature written before is lost. *)
Theorem corrupt_tile_aborts_run :
  (forall (w : world) (k : key),
     bucket_feats (buckets w) k <> [] ->
     disk w !! k = Some Unreadable ->
     exists w',
       flush_buckets w = (Raise CorruptTile, w') /\
       buckets w' = buckets w /\
       disk w' !! k = Some Unreadable /\
       disk_extends (disk w) (disk w')) /\
  (forall (rows : list row) (ins : list (key * feature))
          (d : gmap key tile_file) (k : key),
     batch cfg <> 0 ->
     plan cfg rows = Ok ins ->
     feats_of ins k <> [] ->
     d !! k = Some Unreadable ->
     exists w',
       main cfg rows (init_world d) = (Raise CorruptTile, w') /\
       disk w' !! k = Some Unreadable /\
       disk_extends d (disk w')).
Proof.
  split.
  - intros w k Hb Hu.
    destruct (flush_buckets_raise w k Hb Hu) as (d' & E & HU & HP).
    eexists. split; [exact E|]. cbn [buckets disk].
    split; [reflexivity|]. split; [exact (HU k Hu)|]. split; assumption.
  - intros rows ins d k Hb Hplan Hins Hu.
    destruct (rows_corrupt k rows ins (init_world d) Hb Hplan) as (o & w1 & E1 & X1 & C1).
    { constructor. } { exact Hu. }
    cbn [init_world disk buckets] in *. unfold main, bind. rewrite E1.
    destruct C1 as [->|(-> & Hwf1 & Hf1)].
    + exists w1. split; [reflexivity|]. split; [exact (proj1 X1 k Hu) | exact X1].
    + cbn [bucket_feats app] in Hf1.
      destruct (flush_buckets_raise w1 k) as (d' & E2 & HU & HP).
      { rewrite Hf1. exact Hins. } { exact (proj1 X1 k Hu). }
      rewrite E2. eexists. split; [reflexivity|]. cbn [disk].
      split; [exact (HU k (proj1 X1 k Hu))|].
      apply (disk_extends_trans _ _ _ X1). split; assumption.
Qed.

End Claims.

(** ** The mapper at the antimeridian *)

Lemma x_at_180_all : forallb x_at_180_is_pow2 (Py.range_incl 0 1023) = true.
Proof. vm_compute. reflexivity. Qed.

Lemma tile_x_180 (z : Z) : 0 <= z <= 1023 -> tile_x 180 z = Ok (2 ^ z).
Proof.
  intros Hz. pose proof x_at_180_all as H.
  rewrite forallb_forall in H. specialize (H z).
  unfold x_at_180_is_pow2 in H. destruct (tile_x 180 z) as [x|e].
  - f_equal. apply Z.eqb_eq, H, list_elem_of_In, range_incl_elem. exact Hz.
  - discriminate H. apply list_elem_of_In, range_incl_elem. exact Hz.
Qed.

(** C1, at the failing input: at longitude 180, which the driver accepts,
    whenever the mapper returns a tile at a zoom [z] of [0..1023] its [x] is
    [2 ^ z], outside of [0 <= x < 2 ^ z]. *)
Theorem lonlat_to_tile_x_at_antimeridian {rt : runtime} (lat : float) (z x y : Z) :
  0 <= z <= 1023 ->
  lonlat_to_tile 180 lat z = Ok (x, y) ->
  x = 2 ^ z /\ ~ (0 <= x < 2 ^ z).
Proof.
  intros Hz. unfold lonlat_to_tile. rewrite (tile_x_180 z Hz). cbn [res_bind].
  destruct (math_sin _) as [s|e]; cbn [res_bind]; [|discriminate].
  destruct (tile_y s z) as [y'|e]; cbn [res_bind]; [|discriminate].
  intros [= <- <-]. split; [reflexivity | lia].
Qed.

Lemma lonlat_to_tile_x_at_antimeridian_witness :
  (1 : Z) = 2 ^ 0 /\ ~ (0 <= 1 < 2 ^ 0).
Proof.
  apply (@lonlat_to_tile_x_at_antimeridian sample_runtime 0 0 1 0).
  - lia.
  - vm_compute. reflexivity.
Defined.

(** With the values of [math.sin] and [math.log] of the sample runtime, the
    mapper's [y] leaves the range too: it is negative at the north pole and
    above [2 ^ z] at the south pole. *)
Example lonlat_to_tile_y_sample :
  @lonlat_to_tile sample_runtime 0 90 1 = Ok (1, -1) /\
  @lonlat_to_tile sample_runtime 0 (-90) 2 = Ok (2, 6).
Proof. split; vm_compute; reflexivity. Qed.

(** ** The pipeline on the examples *)

(** C3, at the failing input: in the scenario of three rows of which one has
    longitude 200, the number that the run reports is 3, the number of rows
    read, while 2 rows are accepted and the tile directory holds 2
    features. *)
Theorem report_is_rows_seen_in_scenario :
  (@main sample_runtime cfg66 three_rows (init_world ∅)).1 = Ok 3 /\
  @accepted_count sample_runtime cfg66 three_rows = 2 /\
  length (tile_features
            (disk (@main sample_runtime cfg66 three_rows (init_world ∅)).2)
            tile_6_33_13) = 2%nat.
Proof. vm_compute. repeat split. Qed.

(** C8, at the failing input: with a batch size of 2 over eight rows that
    are in turn accepted and skipped, the count of accepted records reaches 2
    at row 3 and 4 at row 7, where the flushes are due; the row loop calls no
    flush at all, since every multiple of 2 of [rows_seen] falls on a skipped
    row, which the test of the batch is not reached for; 4 records are
    buffered when the loop ends, and the only flush of the run is the final
    one. *)
Theorem no_periodic_flush_on_alternating_rows :
  @spec_flush_points sample_runtime cfg_batch2 alternating_rows 0 0 = [3; 7] /\
  @accepted_count sample_runtime cfg_batch2 alternating_rows = 4 /\
  flush_log (for_each (@process_row sample_runtime cfg_batch2)
               alternating_rows (init_world ∅)).2 = [] /\
  bucket_total (buckets (for_each (@process_row sample_runtime cfg_batch2)
                           alternating_rows (init_world ∅)).2) = 4 /\
  flush_log (@main sample_runtime cfg_batch2 alternating_rows (init_world ∅)).2
  = [8].
Proof. vm_compute. repeat split. Qed.

Lemma absorb_one_insertion_per_zoom_witness :
  exists b',
    @absorb sample_runtime cfg57 zurich 8.5 47.0 (init_world ∅)
      = (Ok tt, set_buckets b' (init_world ∅)) /\
    bucket_total b' = 3.
Proof.
  destruct (@absorb_one_insertion_per_zoom sample_runtime cfg57 zurich 8.5 47.0
              [(5, 16, 6); (6, 33, 13); (7, 67, 26)] (init_world ∅))
    as (b' & E & _ & _ & _ & Ht & _).
  - constructor.
  - vm_compute. discriminate.
  - vm_compute. reflexivity.
  - exists b'. split; [exact E | exact Ht].
Defined.

Lemma batch_size_does_not_change_tiles_witness :
  exists d fl1 fl2,
    @main sample_runtime (with_batch 1 cfg66) three_rows (init_world ∅)
      = (Ok 3, World [] 3 d fl1) /\
    @main sample_runtime (with_batch 1000000 cfg66) three_rows (init_world ∅)
      = (Ok 3, World [] 3 d fl2).
Proof.
  edestruct (@batch_size_does_not_change_tiles sample_runtime cfg66 1 1000000 three_rows)
    as (d & fl1 & fl2 & E1 & E2 & _).
  - lia.
  - lia.
  - vm_compute. reflexivity.
  - exists d, fl1, fl2. split; [exact E1 | exact E2].
Defined.


Lemma corrupt_tile_aborts_run_witness :
  (exists w',
     flush_buckets stuck_world = (Raise CorruptTile, w') /\
     buckets w' = buckets stuck_world /\
     disk w' !! tile_6_33_13 = Some Unreadable) /\
  (exists w',
     @main sample_runtime cfg66 three_rows (init_world corrupt_dir)
       = (Raise CorruptTile, w') /\
     disk w' !! tile_6_33_13 = Some Unreadable).
Proof.
  split.
  - destruct (proj1 (@corrupt_tile_aborts_run sample_runtime cfg66)
                stuck_world tile_6_33_13) as (w' & E & Hb & Hu & _).
    + vm_compute. discriminate.
    + vm_compute. reflexivity.
    + exists w'. split; [exact E|]. split; [exact Hb | exact Hu].
  - destruct (proj2 (@corrupt_tile_aborts_run sample_runtime cfg66)
                three_rows
                (match @plan sample_runtime cfg66 three_rows with
                 | Ok ins => ins
                 | Raise _ => []
                 end)
                corrupt_dir tile_6_33_13) as (w' & E & Hu & _).
    + vm_compute. discriminate.
    + vm_compute. reflexivity.
    + vm_compute. discriminate.
    + vm_compute. reflexivity.
    + exists w'. split; [exact E | exact Hu].
Defined.

Lemma unusable_row_is_skipped_witness :
  @process_row sample_runtime cfg66 (mk_row "10" "200") (init_world ∅)
  = (Ok tt, count_row (init_world ∅)).
Proof.
  apply (proj1 (@unusable_row_is_skipped sample_runtime cfg66 (mk_row "10" "200")
                  (or_intror (or_intror
                     (ex_intro _ 10%float (ex_intro _ 200%float
                        (conj eq_refl (conj eq_refl eq_refl)))))))).
Defined.

Lemma failed_flush_keeps_buckets_witness :
  buckets (flush_buckets stuck_world).2 = buckets stuck_world.
Proof.
  apply (proj1 (failed_flush_keeps_buckets stuck_world
                  (flush_buckets stuck_world).1 (flush_buckets stuck_world).2
                  (surjective_pairing _)) CorruptTile).
  vm_compute. reflexivity.
Defined.

(** * Further properties of the pipeline *)

Section Frames.

Context {rt : runtime}.
Variable cfg : config.

(** The zoom loop touches the buckets only, whatever its outcome. *)
Lemma absorb_loop_frame (f : feature) (lon lat : float) (zs : list Z) (w : world) :
  exists o b', for_each (absorb_at f lon lat) zs w = (o, set_buckets b' w).
Proof.
  revert w. induction zs as [|z zs IH]; intros w.
  - exists (Ok tt), (buckets w). cbn. destruct w; reflexivity.
  - cbn [for_each]. unfold bind at 1, absorb_at, bind, lift, modify.
    destruct (lonlat_to_tile lon lat z) as [t|e].
    + edestruct IH as (o & b' & E). rewrite E.
      exists o, b'. reflexivity.
    + exists (Raise e), (buckets w). destruct w; reflexivity.
Qed.

Lemma absorb_frame (f : feature) (lon lat : float) (w : world) :
  exists o b', absorb cfg f lon lat w = (o, set_buckets b' w).
Proof. apply absorb_loop_frame. Qed.

(** One step of the row loop, whatever its outcome: the directory is
    extended, and the counter is one more when the step returns. *)
Lemma process_row_any (r : row) (w : world) :
  exists o w',
    process_row cfg r w = (o, w') /\
    disk_extends (disk w) (disk w') /\
    (o = Ok tt -> rows_seen w' = rows_seen w + 1).
Proof.
  destruct (accepted cfg r) as [[lat lon]|] eqn:Ea.
  - rewrite (process_row_accept cfg r lat lon w Ea). unfold bind at 1.
    destruct (absorb_frame (Feature (lon, lat) (row_props cfg r)) lon lat (count_row w))
      as (o1 & b' & E1).
    rewrite E1. destruct o1 as [[]|e].
    + unfold bind at 1, batch_boundary, bind at 1, get.
      destruct (batch cfg =? 0).
      * eexists. eexists. split; [reflexivity|]. cbn.
        split; [apply disk_extends_refl | discriminate].
      * cbn [ret]. destruct (rows_seen (set_buckets b' (count_row w)) mod batch cfg =? 0).
        -- destruct (flush_buckets_spec (set_buckets b' (count_row w)))
             as (o2 & d' & E2 & [Ho HU HP HM HI]).
           rewrite E2. eexists. eexists. split; [reflexivity|].
           cbn [disk rows_seen set_buckets count_row] in *.
           split; [split; assumption | reflexivity].
        -- eexists. eexists. split; [reflexivity|]. cbn.
           split; [apply disk_extends_refl | reflexivity].
    + eexists. eexists. split; [reflexivity|]. cbn.
      split; [apply disk_extends_refl | discriminate].
  - rewrite (process_row_skip cfg r w Ea). eexists. eexists.
    split; [reflexivity|]. cbn. split; [apply disk_extends_refl | reflexivity].
Qed.

Lemma rows_any (rows : list row) (w : world) :
  exists o w',
    for_each (process_row cfg) rows w = (o, w') /\
    disk_extends (disk w) (disk w') /\
    (o = Ok tt -> rows_seen w' = rows_seen w + Z.of_nat (length rows)).
Proof.
  revert w. induction rows as [|r rows IH]; intros w.
  - exists (Ok tt), w. split; [reflexivity|].
    split; [apply disk_extends_refl | cbn; lia].
  - destruct (process_row_any r w) as (o1 & w1 & E1 & X1 & N1).
    cbn [for_each]. unfold bind. rewrite E1. destruct o1 as [[]|e].
    + destruct (IH w1) as (o2 & w2 & E2 & X2 & N2).
      exists o2, w2. split; [exact E2|].
      split; [exact (disk_extends_trans _ _ _ X1 X2)|].
      intros Ho. rewrite (N2 Ho), (N1 eq_refl). cbn [length]. lia.
    + exists (Raise e), w1. split; [reflexivity|]. split; [exact X1 | discriminate].
Qed.

(** X1: whatever the input, the options and the outcome of a run, ended or
    aborted, the directory it leaves extends the one it found: an unreadable
    file is as it was, and a readable tile file still exists with its
    former features first, in their order.  The pipeline deletes no tile
    file and removes or reorders no stored feature. *)
Theorem run_never_loses_features (rows : list row) (d : gmap key tile_file) :
  exists o w',
    main cfg rows (init_world d) = (o, w') /\
    (forall k, d !! k = Some Unreadable -> disk w' !! k = Some Unreadable) /\
    (forall k l, d !! k = Some (FeatureCollection l) ->
       exists l', disk w' !! k = Some (FeatureCollection (l ++ l'))).
Proof.
  destruct (rows_any rows (init_world d)) as (o1 & w1 & E1 & X1 & _).
  unfold main, bind. rewrite E1. cbn [init_world disk] in X1.
  destruct o1 as [[]|e].
  - destruct (flush_buckets_spec w1) as (o2 & d' & E2 & [Ho HU HP HM HI]).
    rewrite E2.
    assert (X2 : disk_extends (disk w1) d') by (split; assumption).
    destruct (disk_extends_trans _ _ _ X1 X2) as [U P].
    destruct o2 as [[]|e]; eexists; eexists; (split; [reflexivity|]);
      cbn [disk]; split; assumption.
  - exists (Raise e), w1. split; [reflexivity|]. exact X1.
Qed.

(** X2: when a run ends without an exception, the number it returns for the
    closing message is the number of rows of the input, the skipped rows
    counted with the others, and it is the final value of [rows_seen]. *)
Theorem run_returns_row_count (rows : list row) (d : gmap key tile_file)
    (n : Z) (w' : world) :
  main cfg rows (init_world d) = (Ok n, w') ->
  n = Z.of_nat (length rows) /\ rows_seen w' = n.
Proof.
  destruct (rows_any rows (init_world d)) as (o1 & w1 & E1 & _ & N1).
  unfold main, bind. rewrite E1. destruct o1 as [[]|e]; [|discriminate].
  destruct (flush_buckets_spec w1) as (o2 & d' & E2 & _).
  rewrite E2. destruct o2 as [[]|e]; [|discriminate].
  cbn [get ret rows_seen]. intros [= <- <-]. cbn [rows_seen].
  rewrite (N1 eq_refl). cbn. split; lia.
Qed.

End Frames.

(** ** Edge cases of the options *)

Lemma for_each_app {A : Type} (f : A -> M unit) (a b : list A) (w : world) :
  for_each f (a ++ b) w =
  match for_each f a w with
  | (Ok _, w') => for_each f b w'
  | (Raise e, w') => (Raise e, w')
  end.
Proof.
  revert w. induction a as [|x a IH]; intros w; [reflexivity|].
  cbn [app for_each]. unfold bind. destruct (f x w) as [[[]|e] w1]; [|reflexivity].
  apply IH.
Qed.

Lemma flush_buckets_empty (n : Z) (d : gmap key tile_file) (fl : list Z) :
  flush_buckets (World [] n d fl) = (Ok tt, World [] n d (fl ++ [n])).
Proof. reflexivity. Qed.

Lemma range_incl_empty (lo hi : Z) : hi < lo -> Py.range_incl lo hi = [].
Proof.
  intros H. unfold Py.range_incl.
  replace (Z.to_nat (hi + 1 - lo)) with 0%nat by lia. reflexivity.
Qed.

Lemma range_incl_first (lo hi : Z) :
  lo <= hi -> exists zs, Py.range_incl lo hi = lo :: zs.
Proof.
  intros H. unfold Py.range_incl.
  destruct (Z.to_nat (hi + 1 - lo)) as [|n] eqn:E; [lia|].
  cbn [seq map]. eexists. f_equal. lia.
Qed.

Lemma lonlat_to_tile_negative_zoom {rt : runtime} (lon lat : float) (z : Z) :
  z < 0 -> lonlat_to_tile lon lat z = Raise ValueError.
Proof.
  intros H. unfold lonlat_to_tile, tile_x, Py.shl1.
  rewrite (proj2 (Z.ltb_lt _ _) H). reflexivity.
Qed.

Section Options.

Context {rt : runtime}.
Variable cfg : config.

(** The rows of a stretch that the driver skips only move the counter. *)
Lemma skipped_rows_count (rows : list row) (w : world) :
  Forall (fun r => accepted cfg r = None) rows ->
  for_each (process_row cfg) rows w =
  (Ok tt, World (buckets w) (rows_seen w + Z.of_nat (length rows))
                (disk w) (flush_log w)).
Proof.
  intros H. revert w. induction H as [|r rows Hr _ IH]; intros w.
  - cbn. destruct w as [b n d fl]. cbn. f_equal. f_equal. lia.
  - cbn [for_each]. unfold bind. rewrite (process_row_skip cfg r w Hr), IH.
    cbn [count_row buckets rows_seen disk flush_log length]. f_equal. f_equal. lia.
Qed.

(** X3: with a batch size of 0 the test [rows_seen % batch] raises: a run
    aborts with [ZeroDivisionError] at its first accepted row, after that
    row has been put in the buckets and before any tile file is written; over
    an input of skipped rows only, the run ends as with any batch size. *)
Theorem zero_batch_aborts_at_first_accepted_row :
  batch cfg = 0 ->
  (forall (pre post : list row) (r : row) (lat lon : float) (ks : list key)
          (d : gmap key tile_file),
     Forall (fun r => accepted cfg r = None) pre ->
     accepted cfg r = Some (lat, lon) ->
     tile_keys cfg lon lat = Ok ks ->
     exists b,
       main cfg (pre ++ r :: post) (init_world d)
       = (Raise ZeroDivisionError, World b (Z.of_nat (length pre) + 1) d []) /\
       bucket_total b = Z.of_nat (length ks)) /\
  (forall (rows : list row) (d : gmap key tile_file),
     Forall (fun r => accepted cfg r = None) rows ->
     let n := Z.of_nat (length rows) in
     main cfg rows (init_world d) = (Ok n, World [] n d [n])).
Proof.
  intros Hb. split.
  - intros pre post r lat lon ks d Hpre Ha Hks.
    unfold main. unfold bind at 1. rewrite for_each_app, (skipped_rows_count pre _ Hpre).
    cbn [init_world buckets rows_seen disk flush_log for_each].
    unfold bind at 1. rewrite (process_row_accept cfg r lat lon _ Ha).
    unfold bind at 1. rewrite (absorb_ok cfg _ lon lat ks _ Hks).
    unfold bind at 1, batch_boundary, bind at 1, get. rewrite Hb.
    cbn [Z.eqb raise count_row set_buckets buckets rows_seen disk flush_log].
    eexists. split; [reflexivity|].
    destruct (bucket_appends_spec (Feature (lon, lat) (row_props cfg r)) ks [])
      as (_ & Ht & _); [constructor|].
    exact Ht.
  - intros rows d Hrows. cbv zeta. unfold main, bind at 1.
    rewrite (skipped_rows_count rows _ Hrows).
    cbn [init_world buckets rows_seen disk flush_log]. unfold bind at 1.
    rewrite flush_buckets_empty. reflexivity.
Qed.

(** X4: a negative zoom level makes the mapper raise [ValueError] (the shift
    [1 << z]), whatever the coordinates; so with a negative [min_zoom] a run
    aborts at its first accepted row, with nothing buffered and no tile file
    written. *)
Theorem negative_zoom_aborts_at_first_accepted_row :
  min_zoom cfg < 0 ->
  min_zoom cfg <= max_zoom cfg ->
  (forall lon lat, lonlat_to_tile lon lat (min_zoom cfg) = Raise ValueError) /\
  (forall (pre post : list row) (r : row) (c : float * float)
          (d : gmap key tile_file),
     Forall (fun r => accepted cfg r = None) pre ->
     accepted cfg r = Some c ->
     main cfg (pre ++ r :: post) (init_world d)
     = (Raise ValueError, World [] (Z.of_nat (length pre) + 1) d [])).
Proof.
  intros Hneg Hle. split.
  - intros lon lat. apply lonlat_to_tile_negative_zoom, Hneg.
  - intros pre post r [lat lon] d Hpre Ha.
    unfold main. unfold bind at 1. rewrite for_each_app, (skipped_rows_count pre _ Hpre).
    cbn [init_world buckets rows_seen disk flush_log for_each].
    unfold bind at 1. rewrite (process_row_accept cfg r lat lon _ Ha).
    unfold bind at 1, absorb.
    destruct (range_incl_first _ _ Hle) as [zs ->]. cbn [for_each].
    unfold bind at 1, absorb_at, bind at 1, lift.
    rewrite (lonlat_to_tile_negative_zoom lon lat _ Hneg). reflexivity.
Qed.

(** X5: with [max_zoom] below [min_zoom] the zoom loop is empty: a run reads
    every row, ends without an exception, buffers nothing and leaves the
    directory exactly as it found it, unreadable files included. *)
Theorem empty_zoom_range_writes_nothing (rows : list row) (d : gmap key tile_file) :
  max_zoom cfg < min_zoom cfg ->
  batch cfg <> 0 ->
  exists fl,
    let n := Z.of_nat (length rows) in
    main cfg rows (init_world d) = (Ok n, World [] n d fl).
Proof.
  intros Hz Hb.
  assert (Hloop : forall rows n fl, exists fl',
            for_each (process_row cfg) rows (World [] n d fl)
            = (Ok tt, World [] (n + Z.of_nat (length rows)) d fl')).
  { clear rows. induction rows as [|r rows IH]; intros n fl.
    - exists fl. cbn. f_equal. f_equal. lia.
    - cbn [for_each]. unfold bind at 1.
      assert (exists fl1, process_row cfg r (World [] n d fl)
                          = (Ok tt, World [] (n + 1) d fl1)) as [fl1 E1].
      { destruct (accepted cfg r) as [[lat lon]|] eqn:Ea.
        - rewrite (process_row_accept cfg r lat lon _ Ea).
          unfold bind at 1, absorb. rewrite (range_incl_empty _ _ Hz).
          cbn [for_each ret count_row buckets rows_seen disk flush_log].
          unfold bind at 1, batch_boundary, bind at 1, get.
          rewrite (proj2 (Z.eqb_neq _ _) Hb). cbn [ret].
          destruct (_ mod _ =? 0); eexists; reflexivity.
        - rewrite (process_row_skip cfg r _ Ea). exists fl. reflexivity. }
      rewrite E1. destruct (IH (n + 1) fl1) as [fl' E]. rewrite E.
      exists fl'. cbn [length]. f_equal. f_equal. lia. }
  destruct (Hloop rows 0 []) as [fl' E].
  unfold main, bind at 1, init_world. rewrite E. unfold bind at 1.
  rewrite flush_buckets_empty. eexists. reflexivity.
Qed.

End Options.

(** ** What a flush writes *)

(** X6: a flush that ends without an exception leaves every tile without
    buffered features as it was, file or no file; it writes no tile file
    with an empty feature list; and a second flush right after it ends too and
    changes neither the directory nor the (empty) buckets. *)
Theorem flush_touches_only_buffered_tiles (w w1 : world) :
  flush_buckets w = (Ok tt, w1) ->
  (forall k, bucket_feats (buckets w) k = [] -> disk w1 !! k = disk w !! k) /\
  (forall k, disk w1 !! k = Some (FeatureCollection []) ->
             disk w !! k = Some (FeatureCollection [])) /\
  exists w2,
    flush_buckets w1 = (Ok tt, w2) /\ disk w2 = disk w1 /\ buckets w2 = [].
Proof.
  intros E. destruct (flush_buckets_spec w) as (o & d' & E0 & [Ho HU HP HM HI]).
  rewrite E0 in E. injection E as -> <-. cbn [disk buckets].
  pose proof (HM eq_refl) as Hd. split; [|split].
  - intros k Hk. rewrite Hd, Hk. reflexivity.
  - intros k. rewrite Hd.
    destruct (bucket_feats (buckets w) k) as [|f l]; [trivial|].
    destruct (disk w !! k) as [[|old]|]; cbn; try discriminate.
    intros [= H]. apply app_eq_nil in H. destruct H as [_ H]. discriminate.
  - eexists. rewrite flush_buckets_empty. split; [reflexivity|]. split; reflexivity.
Qed.

(** ** The buffer between two flushes *)

Lemma mod_succ (n b : Z) :
  0 < b -> (n + 1) mod b <> 0 -> (n + 1) mod b = n mod b + 1.
Proof.
  intros Hb Hne. pose proof (Z.mod_pos_bound n b Hb) as Hr.
  pose proof (Z.div_mod n b ltac:(lia)) as Hn.
  destruct (Z.eq_dec (n mod b + 1) b) as [Heq|Hlt].
  - exfalso. apply Hne.
    replace (n + 1) with ((n / b + 1) * b) by lia. apply Z.mod_mul. lia.
  - symmetry. apply (Z.mod_unique _ _ (n / b)); lia.
Qed.

Section Buffer.

Context {rt : runtime}.
Variable cfg : config.

(** The number of zoom levels of the range. *)
Local Notation levels := (Z.max 0 (max_zoom cfg + 1 - min_zoom cfg)).

Lemma accepted_row_buffer (r : row) (a : list (key * feature)) (w : world) :
  0 < batch cfg ->
  is_Some (accepted cfg r) ->
  row_plan cfg r = Ok a ->
  bucket_wf (buckets w) -> disk_ok (disk w) ->
  bucket_total (buckets w) = (rows_seen w mod batch cfg) * levels ->
  exists w',
    process_row cfg r w = (Ok tt, w') /\
    bucket_wf (buckets w') /\ disk_ok (disk w') /\
    rows_seen w' = rows_seen w + 1 /\
    bucket_total (buckets w') = (rows_seen w' mod batch cfg) * levels.
Proof.
  intros Hb [[lat lon] Ea] Hplan Hwf Hok Hinv. unfold row_plan in Hplan.
  rewrite Ea in Hplan.
  destruct (tile_keys cfg lon lat) as [ks|e] eqn:Eks; [|discriminate].
  destruct (tile_keys_spec cfg lon lat ks Eks) as (_ & _ & _ & Hlen).
  rewrite (process_row_accept cfg r lat lon w Ea).
  set (f := Feature (lon, lat) (row_props cfg r)).
  unfold bind at 1. rewrite (absorb_ok cfg f lon lat ks _ Eks).
  destruct (bucket_appends_spec f ks (buckets w) Hwf) as (Hwf1 & Ht1 & _).
  cbn [buckets count_row] in *.
  set (b1 := foldl (fun b k => bucket_append k f b) (buckets w) ks) in *.
  unfold bind at 1, batch_boundary, bind at 1, get.
  assert (Hb0 : batch cfg <> 0) by lia.
  rewrite (proj2 (Z.eqb_neq _ _) Hb0).
  cbn [ret set_buckets count_row rows_seen].
  destruct ((rows_seen w + 1) mod batch cfg =? 0) eqn:Em.
  - destruct (flush_buckets_ok (set_buckets b1 (count_row w))) as (d' & E & Hd').
    { intros k _. apply Hok. }
    rewrite E. eexists. split; [reflexivity|].
    cbn [buckets disk rows_seen set_buckets count_row] in *.
    split; [constructor|]. split.
    + intros k. rewrite Hd'. apply merge_tile_ok, Hok.
    + split; [reflexivity|]. apply Z.eqb_eq in Em. rewrite Em. reflexivity.
  - eexists. split; [reflexivity|].
    cbn [buckets disk rows_seen set_buckets count_row].
    split; [exact Hwf1|]. split; [exact Hok|]. split; [reflexivity|].
    apply Z.eqb_neq in Em. rewrite (mod_succ _ _ Hb Em), Ht1, Hinv. lia.
Qed.

(** X7: while every row read is accepted, the buffer stays bounded, as the
    batch size is meant to ensure: after the row loop has taken [n] rows,
    the buckets hold [n mod batch] records at each zoom level of the range,
    at most [batch - 1] per level. *)
Theorem buffer_bounded_without_skipped_rows (rows : list row)
    (ins : list (key * feature)) (d : gmap key tile_file) :
  0 < batch cfg ->
  Forall (fun r => is_Some (accepted cfg r)) rows ->
  plan cfg rows = Ok ins ->
  disk_ok d ->
  exists w',
    for_each (process_row cfg) rows (init_world d) = (Ok tt, w') /\
    bucket_total (buckets w')
      = (Z.of_nat (length rows) mod batch cfg)
        * Z.max 0 (max_zoom cfg + 1 - min_zoom cfg) /\
    bucket_total (buckets w')
      <= (batch cfg - 1) * Z.max 0 (max_zoom cfg + 1 - min_zoom cfg).
Proof.
  intros Hb Hall Hplan Hok.
  assert (Hloop : forall rows ins w,
            Forall (fun r => is_Some (accepted cfg r)) rows ->
            plan cfg rows = Ok ins ->
            bucket_wf (buckets w) -> disk_ok (disk w) ->
            bucket_total (buckets w) = (rows_seen w mod batch cfg) * levels ->
            exists w',
              for_each (process_row cfg) rows w = (Ok tt, w') /\
              rows_seen w' = rows_seen w + Z.of_nat (length rows) /\
              bucket_total (buckets w') = (rows_seen w' mod batch cfg) * levels).
  { clear Hall Hplan Hok. clear rows ins.
    intros rows. induction rows as [|r rows IH]; intros ins w Hall Hplan Hwf Hok Hinv.
    - exists w. split; [reflexivity|]. split; [cbn; lia | exact Hinv].
    - apply Forall_cons in Hall. destruct Hall as [Hr Hall]. cbn [plan] in Hplan.
      destruct (row_plan cfg r) as [a|e] eqn:Ea; [|discriminate]. cbn in Hplan.
      destruct (plan cfg rows) as [b|e] eqn:Eb; [|discriminate].
      destruct (accepted_row_buffer r a w Hb Hr Ea Hwf Hok Hinv)
        as (w1 & E1 & Hwf1 & Hok1 & Hn1 & Hinv1).
      destruct (IH b w1 Hall eq_refl Hwf1 Hok1 Hinv1) as (w2 & E2 & Hn2 & Hinv2).
      exists w2. cbn [for_each]. unfold bind. rewrite E1, E2.
      split; [reflexivity|]. split; [|exact Hinv2].
      rewrite Hn2, Hn1. cbn [length]. lia. }
  destruct (Hloop rows ins (init_world d) Hall Hplan) as (w' & E & Hn & Hinv).
  { constructor. } { exact Hok. } { reflexivity. }
  exists w'. split; [exact E|]. cbn [init_world rows_seen] in Hn.
  rewrite Hinv, Hn. change (0 + Z.of_nat (length rows)) with (Z.of_nat (length rows)).
  split; [reflexivity|].
  pose proof (Z.mod_pos_bound (Z.of_nat (length rows)) (batch cfg) Hb).
  apply Z.mul_le_mono_nonneg_r; lia.
Qed.

(** X8: a run over a directory without unreadable file, with a batch size
    other than 0 and an input on which no mapper call raises, ends without an
    exception and with empty buckets; each tile then holds the features it
    held before followed by the features of the input for that tile, in the
    order of the input, and a tile file exists exactly when it existed before
    or the input has a feature for it. *)
Theorem run_appends_in_input_order (rows : list row)
    (ins : list (key * feature)) (d : gmap key tile_file) :
  batch cfg <> 0 ->
  plan cfg rows = Ok ins ->
  disk_ok d ->
  exists w',
    main cfg rows (init_world d) = (Ok (Z.of_nat (length rows)), w') /\
    buckets w' = [] /\
    forall k,
      tile_features (disk w') k = tile_features d k ++ feats_of ins k /\
      (is_Some (disk w' !! k) <-> is_Some (d !! k) \/ feats_of ins k <> []).
Proof.
  intros Hb Hplan Hok.
  destruct (run_spec cfg rows ins d Hb Hplan Hok) as (d' & E & _ & Hd').
  eexists. split; [exact E|]. cbn [buckets disk]. split; [reflexivity|].
  intros k. split.
  - rewrite (tile_features_merge d' (d !! k) (feats_of ins k) k (Hd' k) (Hok k)).
    unfold tile_features. destruct (d !! k) as [[|old]|]; reflexivity.
  - rewrite Hd'. pose proof (Hok k) as Hk.
    destruct (feats_of ins k) as [|f l], (d !! k) as [[|old]|]; cbn;
      try congruence; split; intros H;
      try (destruct H as [H|H]; [exact H | congruence]);
      try (left; exact H); try (eexists; reflexivity);
      try (right; discriminate).
Qed.

End Buffer.

(** ** The latitude band *)

Lemma SFcompare_antisym (x y : spec_float) :
  SFcompare y x = option_map CompOpp (SFcompare x y).
Proof.
  destruct x as [sx|sx| |sx mx ex], y as [sy|sy| |sy my ey]; cbn;
    try reflexivity; try (destruct sx; reflexivity); try (destruct sy; reflexivity);
    try (destruct sx, sy; reflexivity).
  destruct sx, sy; try reflexivity; cbn;
    rewrite (Z.compare_antisym ex ey); destruct (ex ?= ey); cbn; try reflexivity;
    change (Pos.compare_cont Eq my mx) with (Pos.compare my mx);
    change (Pos.compare_cont Eq mx my) with (Pos.compare mx my);
    rewrite (Pos.compare_antisym mx my); destruct (mx ?= my)%positive; reflexivity.
Qed.

Lemma leb_not_ltb (x y : float) : (x <=? y)%float = true -> (y <? x)%float = false.
Proof.
  rewrite FloatAxioms.leb_spec, FloatAxioms.ltb_spec. unfold SFleb, SFltb.
  rewrite (SFcompare_antisym (Prim2SF x) (Prim2SF y)).
  destruct (SFcompare (Prim2SF x) (Prim2SF y)) as [[]|]; cbn; intros H;
    first [reflexivity | discriminate H].
Qed.

Lemma not_ltb_leb (x y : float) :
  (x =? x)%float = true -> (y =? y)%float = true ->
  (y <? x)%float = false -> (x <=? y)%float = true.
Proof.
  rewrite !FloatAxioms.eqb_spec, FloatAxioms.leb_spec, FloatAxioms.ltb_spec.
  unfold SFeqb, SFleb, SFltb.
  rewrite (SFcompare_antisym (Prim2SF x) (Prim2SF y)).
  destruct (Prim2SF x) as [sx|sx| |sx mx ex], (Prim2SF y) as [sy|sy| |sy my ey];
    cbn; try discriminate; intros _ _;
    try (destruct sx); try (destruct sy); cbn;
    try (intros H; first [reflexivity | discriminate H]);
    destruct (ex ?= ey); cbn;
    try (intros H; first [reflexivity | discriminate H]);
    destruct (Pos.compare_cont Eq mx my); cbn;
    intros H; first [reflexivity | discriminate H].
Qed.

Lemma clamp_lat_inside (lat : float) :
  (- 85.05112878 <=? lat)%float = true ->
  (lat <=? 85.05112878)%float = true ->
  clamp_lat lat = lat.
Proof.
  intros Hlo Hhi. unfold clamp_lat, Py.min, Py.max.
  rewrite (leb_not_ltb _ _ Hhi), (leb_not_ltb _ _ Hlo). reflexivity.
Qed.

(** C9: the mapper clamps the latitude to [-85.05112878, 85.05112878] and
    then projects.  A latitude above 85.05112878 gives what latitude
    85.05112878 gives, a latitude below -85.05112878 what latitude
    -85.05112878 gives, at every longitude and zoom, and neither is rejected
    for being out of the band; a latitude within the band, the two edges
    included, is projected as it is: [x] from the longitude, [y] from the
    sine of the latitude itself. *)
Theorem lonlat_to_tile_clamps_latitude {rt : runtime} (lon lat : float) (z : Z) :
  ((85.05112878 <? lat)%float = true ->
   lonlat_to_tile lon lat z = lonlat_to_tile lon 85.05112878%float z) /\
  ((lat <? - 85.05112878)%float = true ->
   lonlat_to_tile lon lat z = lonlat_to_tile lon (- 85.05112878)%float z) /\
  ((- 85.05112878 <=? lat)%float = true ->
   (lat <=? 85.05112878)%float = true ->
   lonlat_to_tile lon lat z =
   (let? x := tile_x lon z in
    let? s := math_sin (Py.radians lat) in
    let? y := tile_y s z in
    Ok (x, y))).
Proof.
  split; [|split].
  - intros H. unfold lonlat_to_tile. rewrite (clamp_lat_above lat H). reflexivity.
  - intros H. unfold lonlat_to_tile. rewrite (clamp_lat_below lat H). reflexivity.
  - intros Hlo Hhi. unfold lonlat_to_tile.
    rewrite (clamp_lat_inside lat Hlo Hhi). reflexivity.
Qed.

Lemma lonlat_to_tile_clamps_latitude_witness :
  (@lonlat_to_tile sample_runtime 8.5 89 6
   = @lonlat_to_tile sample_runtime 8.5 85.05112878%float 6) /\
  (@lonlat_to_tile sample_runtime 8.5 (-90) 6
   = @lonlat_to_tile sample_runtime 8.5 (- 85.05112878)%float 6) /\
  (@lonlat_to_tile sample_runtime 8.5 47.0 6
   = (let? x := tile_x 8.5 6 in
      let? s := @math_sin sample_runtime (Py.radians 47.0) in
      let? y := @tile_y sample_runtime s 6 in
      Ok (x, y))).
Proof.
  split; [|split].
  - apply (proj1 (@lonlat_to_tile_clamps_latitude sample_runtime 8.5 89 6)).
    reflexivity.
  - apply (proj1 (proj2 (@lonlat_to_tile_clamps_latitude sample_runtime 8.5 (-90) 6))).
    reflexivity.
  - apply (proj2 (proj2 (@lonlat_to_tile_clamps_latitude sample_runtime 8.5 47.0 6)));
      reflexivity.
Defined.

(** X9: a latitude within the band [-85.05112878, 85.05112878] goes through
    the clamp unchanged, and the clamp of any latitude that is a number lies
    within the band: the projection never sees a latitude outside of it. *)
Theorem clamp_lat_band (lat : float) :
  ((- 85.05112878 <=? lat)%float = true ->
   (lat <=? 85.05112878)%float = true ->
   clamp_lat lat = lat) /\
  ((lat =? lat)%float = true ->
   (- 85.05112878 <=? clamp_lat lat)%float = true /\
   (clamp_lat lat <=? 85.05112878)%float = true).
Proof.
  split.
  - intros Hlo Hhi. unfold clamp_lat, Py.min, Py.max.
    rewrite (leb_not_ltb _ _ Hhi), (leb_not_ltb _ _ Hlo). reflexivity.
  - intros Hnum. unfold clamp_lat, Py.min, Py.max.
    destruct (85.05112878 <? lat)%float eqn:Hhi.
    + split; reflexivity.
    + destruct (lat <? - 85.05112878)%float eqn:Hlo.
      * split; reflexivity.
      * split; apply not_ltb_leb; try assumption; reflexivity.
Qed.

Lemma clamp_lat_band_witness : clamp_lat 47.0 = 47.0%float.
Proof.
  apply (proj1 (clamp_lat_band 47.0)); reflexivity.
Defined.

(** ** The properties of a feature *)

Lemma dict_set_keys (k v : string) (d : list (string * string)) :
  map fst (dict_set k v d) =
  if decide (k ∈ map fst d) then map fst d else map fst d ++ [k].
Proof.
  induction d as [|[k' v'] d IH]; [reflexivity|]. cbn.
  destruct (decide (k = k')) as [->|Hne].
  - rewrite decide_True by left. reflexivity.
  - cbn. rewrite IH. destruct (decide (k ∈ map fst d)) as [Hin|Hnin].
    + rewrite decide_True by (right; exact Hin). reflexivity.
    + rewrite decide_False; [reflexivity|].
      rewrite not_elem_of_cons. split; assumption.
Qed.

Lemma dict_set_fresh (k v : string) (d : list (string * string)) :
  k ∉ map fst d -> dict_set k v d = d ++ [(k, v)].
Proof.
  induction d as [|[k' v'] d IH]; [reflexivity|]. cbn. intros H.
  rewrite not_elem_of_cons in H. destruct H as [Hne Hd].
  rewrite decide_False by exact Hne. rewrite (IH Hd). reflexivity.
Qed.

Lemma dict_set_elem (k v k' v' : string) (d : list (string * string)) :
  NoDup (map fst d) ->
  (k', v') ∈ dict_set k v d <->
  (k' = k /\ v' = v) \/ (k' <> k /\ (k', v') ∈ d).
Proof.
  induction d as [|[k1 v1] d IH]; intros Hnd; cbn.
  - rewrite list_elem_of_singleton. split.
    + intros [= -> ->]. left. split; reflexivity.
    + intros [[-> ->]|[_ H]]; [reflexivity | inversion H].
  - cbn in Hnd. apply NoDup_cons in Hnd. destruct Hnd as [Hnin Hnd].
    assert (Hkey : forall a b, (a, b) ∈ d -> a <> k1).
    { intros a b Hab ->. apply Hnin. apply list_elem_of_fmap.
      exists (k1, b). split; [reflexivity | exact Hab]. }
    destruct (decide (k = k1)) as [->|Hne]; rewrite !elem_of_cons.
    + split.
      * intros [[= -> ->]|H]; [left; split; reflexivity|].
        right. split; [exact (Hkey _ _ H) | right; exact H].
      * intros [[-> ->]|[Hk [[= -> ->]|H]]];
          [left; reflexivity | congruence | right; exact H].
    + rewrite (IH Hnd). split.
      * intros [[= -> ->]|[[-> ->]|[Hk H]]].
        -- right. split; [congruence | left; reflexivity].
        -- left. split; reflexivity.
        -- right. split; [exact Hk | right; exact H].
      * intros [[-> ->]|[Hk [[= -> ->]|H]]].
        -- right. left. split; reflexivity.
        -- left. reflexivity.
        -- right. right. split; assumption.
Qed.

(** X10: the properties of a feature hold one entry per kept column: no
    column twice, an entry exactly for the columns of [keep_cols], each with
    the text of the row's cell, the empty string when the cell is missing or
    [None]; and when [keep_cols] names no column twice the entries are in
    the order of [keep_cols]. *)
Theorem row_props_spec (cfg : config) (r : row) :
  NoDup (map fst (row_props cfg r)) /\
  (forall k v, (k, v) ∈ row_props cfg r <-> k ∈ keep_cols cfg /\ v = row_get r k) /\
  (forall k, (r !! k = None \/ r !! k = Some None) -> row_get r k = EmptyString) /\
  (NoDup (keep_cols cfg) ->
   row_props cfg r = map (fun k => (k, row_get r k)) (keep_cols cfg)).
Proof.
  unfold row_props.
  assert (Hinv : forall cols,
            let acc := foldl (fun props k => dict_set k (row_get r k) props) [] cols in
            NoDup (map fst acc) /\
            (forall k v, (k, v) ∈ acc <-> k ∈ cols /\ v = row_get r k) /\
            (NoDup cols -> acc = map (fun k => (k, row_get r k)) cols)).
  { intros cols. induction cols as [|k cols IH] using rev_ind; cbv zeta.
    - cbn. split; [constructor|]. split; [|reflexivity].
      intros k v. split; [intros H; inversion H | intros [H _]; inversion H].
    - rewrite foldl_app. cbn [foldl]. cbv zeta in IH.
      set (acc := foldl (fun props k => dict_set k (row_get r k) props) [] cols) in *.
      destruct IH as (Hnd & Hmem & Hord). split; [|split].
      + rewrite dict_set_keys. destruct (decide (k ∈ map fst acc)); [exact Hnd|].
        apply NoDup_app. split; [exact Hnd|]. split; [|apply NoDup_singleton].
        intros x Hx Hk. apply list_elem_of_singleton in Hk. subst x. contradiction.
      + intros k' v'. rewrite (dict_set_elem _ _ _ _ _ Hnd), Hmem, elem_of_app,
          list_elem_of_singleton. split.
        * intros [[-> ->]|[Hk [Hin Hv]]]; split; auto.
        * intros [[Hin| ->] Hv].
          -- destruct (decide (k' = k)) as [->|Hk]; [left | right]; auto.
          -- left. auto.
      + intros Hcols. apply NoDup_app in Hcols. destruct Hcols as (Hc & Hfresh & _).
        rewrite (Hord Hc), map_app. cbn [map]. apply dict_set_fresh.
        rewrite map_map. cbn. rewrite map_id. intros Hin. apply (Hfresh k Hin). left. }
  destruct (Hinv (keep_cols cfg)) as (H1 & H2 & H3). cbv zeta in *.
  split; [exact H1|]. split; [exact H2|]. split; [|exact H3].
  intros k [H|H]; unfold row_get; rewrite H; reflexivity.
Qed.

(** ** Tile paths *)

Lemma sapp_nil (b : string) : EmptyString +:+ b = b.
Proof. reflexivity. Qed.

Lemma sapp_cons (x : ascii) (a b : string) : String x a +:+ b = String x (a +:+ b).
Proof. reflexivity. Qed.

Lemma sapp_assoc (a b c : string) : (a +:+ b) +:+ c = a +:+ (b +:+ c).
Proof.
  induction a as [|x a IH]; [reflexivity|]. rewrite !sapp_cons, IH. reflexivity.
Qed.

Lemma sapp_nonempty_r (a b : string) : b <> EmptyString -> a +:+ b <> EmptyString.
Proof. destruct a; [rewrite sapp_nil; trivial | rewrite sapp_cons; discriminate]. Qed.

Lemma length_zero_iff (s : string) : (String.length s =? 0)%nat = true <-> s = EmptyString.
Proof. destruct s; cbn; split; congruence. Qed.

Lemma has_char_app (c : ascii) (a b : string) :
  has_char c (a +:+ b) = has_char c a || has_char c b.
Proof.
  induction a as [|x a IH]; [reflexivity|].
  rewrite sapp_cons. cbn [has_char]. rewrite IH. apply orb_assoc.
Qed.

Lemma starts_with_sep_has_char (s : string) :
  has_char "/" s = false -> Path.starts_with_sep s = false.
Proof.
  destruct s as [|c s]; [reflexivity|]. cbn. intros H.
  apply orb_false_elim in H. tauto.
Qed.

Lemma ends_with_sep_has_char (s : string) :
  has_char "/" s = false -> Path.ends_with_sep s = false.
Proof.
  induction s as [|c s IH]; [reflexivity|]. cbn [has_char Path.ends_with_sep].
  intros H. apply orb_false_elim in H. destruct H as [Hc Hs].
  destruct s; [exact Hc | exact (IH Hs)].
Qed.

Lemma ends_with_sep_app (a b : string) :
  b <> EmptyString -> Path.ends_with_sep (a +:+ b) = Path.ends_with_sep b.
Proof.
  intros Hb. induction a as [|c a IH]; [reflexivity|].
  rewrite sapp_cons. cbn [Path.ends_with_sep].
  destruct (a +:+ b) eqn:E; [|exact IH].
  exfalso. exact (sapp_nonempty_r a b Hb E).
Qed.

(** Two strings that agree up to the first occurrence of [c], and after it. *)
Lemma split_at_first (c : ascii) (a b r1 r2 : string) :
  has_char c a = false -> has_char c b = false ->
  a +:+ String c r1 = b +:+ String c r2 -> a = b /\ r1 = r2.
Proof.
  revert b. induction a as [|x a IH]; intros [|y b];
    rewrite ?sapp_nil, ?sapp_cons; cbn [has_char].
  - intros _ _ [= ->]. split; reflexivity.
  - intros _ H [= -> _]. rewrite Ascii.eqb_refl in H. discriminate.
  - intros H _ [= -> _]. rewrite Ascii.eqb_refl in H. discriminate.
  - intros Ha Hb [= -> E]. apply orb_false_elim in Ha, Hb.
    destruct (IH b (proj2 Ha) (proj2 Hb) E) as [-> ->]. split; reflexivity.
Qed.

Lemma pretty_N_char_not (c : ascii) :
  c = "/"%char \/ c = "."%char \/ c = ","%char -> forall n, pretty_N_char n <> c.
Proof.
  intros [->|[->| ->]] n; unfold pretty_N_char; repeat case_match; discriminate.
Qed.

Lemma pretty_N_go_chars (c : ascii) (x : N) (s : string) :
  (forall n, pretty_N_char n <> c) ->
  has_char c (pretty_N_go x s) = has_char c s.
Proof.
  intros Hc. revert s. induction (N.lt_wf_0 x) as [x _ IH]; intros s.
  destruct (decide (x = 0)%N) as [->|Hx].
  - rewrite pretty_N_go_0. reflexivity.
  - rewrite pretty_N_go_step by lia. rewrite IH by (apply N.div_lt; lia).
    cbn [has_char].
    destruct (Ascii.eqb_spec (pretty_N_char (x `mod` 10)%N) c) as [E|_]; [|reflexivity].
    exfalso. exact (Hc _ E).
Qed.

Lemma pretty_N_go_nonempty (x : N) (s : string) :
  (0 < x)%N \/ s <> EmptyString -> pretty_N_go x s <> EmptyString.
Proof.
  revert s. induction (N.lt_wf_0 x) as [x _ IH]; intros s H.
  destruct (decide (x = 0)%N) as [->|Hx].
  - rewrite pretty_N_go_0. destruct H as [H|H]; [lia | exact H].
  - rewrite pretty_N_go_step by lia. apply IH; [apply N.div_lt; lia|].
    right. discriminate.
Qed.

Lemma str_positive (p : positive) : Path.str (Z.pos p) = pretty_N_go (N.pos p) "".
Proof. reflexivity. Qed.

Lemma str_chars (c : ascii) (z : Z) :
  c = "/"%char \/ c = "."%char \/ c = ","%char -> has_char c (Path.str z) = false.
Proof.
  intros Hc. pose proof (pretty_N_char_not c Hc) as Hd.
  assert (Hp : forall p, has_char c (pretty_N_go (N.pos p) "") = false).
  { intros p. rewrite (pretty_N_go_chars c _ _ Hd). reflexivity. }
  destruct z as [|p|p].
  - destruct Hc as [->|[->| ->]]; reflexivity.
  - rewrite str_positive. apply Hp.
  - change (Path.str (Z.neg p)) with ("-" +:+ pretty_N_go (N.pos p) "").
    rewrite has_char_app, Hp. destruct Hc as [->|[->| ->]]; reflexivity.
Qed.

Lemma str_nonempty (z : Z) : Path.str z <> EmptyString.
Proof.
  destruct z as [|p|p].
  - discriminate.
  - rewrite str_positive. apply pretty_N_go_nonempty. left. lia.
  - discriminate.
Qed.

(** The path of a tile: the output directory, a separator unless the
    directory is empty or ends with one, and [z/x/y.geojson.gz]. *)
Lemma tile_path_layout (out : string) (z x y : Z) :
  tile_path out (z, x, y) =
  (if (String.length out =? 0)%nat || Path.ends_with_sep out then out
   else out +:+ "/")
  +:+ Path.str z +:+ "/" +:+ Path.str x +:+ "/" +:+ Path.str y +:+ ".geojson.gz".
Proof.
  pose proof (str_chars "/" z (or_introl eq_refl)) as Hz.
  pose proof (str_chars "/" x (or_introl eq_refl)) as Hx.
  pose proof (str_chars "/" y (or_introl eq_refl)) as Hy.
  set (base := if (String.length out =? 0)%nat || Path.ends_with_sep out
               then out else out +:+ "/").
  assert (J1 : Path.join out (Path.str z) = base +:+ Path.str z).
  { unfold Path.join, base. rewrite (starts_with_sep_has_char _ Hz).
    destruct ((String.length out =? 0)%nat || Path.ends_with_sep out);
      [reflexivity | symmetry; apply sapp_assoc]. }
  assert (J : forall p s t, s <> EmptyString -> has_char "/" s = false ->
            Path.join (p +:+ s) t
            = if Path.starts_with_sep t then t else p +:+ s +:+ "/" +:+ t).
  { intros p s t Hs Hc. unfold Path.join. destruct (Path.starts_with_sep t); [reflexivity|].
    rewrite (ends_with_sep_app p s Hs), (ends_with_sep_has_char s Hc).
    destruct (String.length (p +:+ s) =? 0)%nat eqn:E.
    - apply length_zero_iff in E. exfalso. exact (sapp_nonempty_r p s Hs E).
    - cbn [orb]. apply sapp_assoc. }
  unfold tile_path. rewrite J1, (J base _ _ (str_nonempty z) Hz).
  rewrite (starts_with_sep_has_char _ Hx).
  replace (base +:+ Path.str z +:+ "/" +:+ Path.str x)
    with ((base +:+ Path.str z +:+ "/") +:+ Path.str x)
    by (rewrite !sapp_assoc; reflexivity).
  rewrite (J _ _ _ (str_nonempty x) Hx).
  assert (Hs3 : Path.starts_with_sep (Path.str y +:+ ".geojson.gz") = false).
  { pose proof (str_nonempty y) as Hne. destruct (Path.str y) as [|c s] eqn:E; [congruence|].
    rewrite sapp_cons. cbn in *. apply orb_false_elim in Hy. tauto. }
  rewrite Hs3, !sapp_assoc. reflexivity.
Qed.

(** X11: the tile file of a key is [out/z/x/y.geojson.gz], where no
    separator is added after an empty output directory or one that ends with
    a separator; and within one output directory the path determines the
    key: two tiles never share a file, for negative indices neither. *)
Theorem tile_path_determines_key (out : string) :
  (forall z x y,
     tile_path out (z, x, y) =
     (if (String.length out =? 0)%nat || Path.ends_with_sep out then out
      else out +:+ "/")
     +:+ Path.str z +:+ "/" +:+ Path.str x +:+ "/" +:+ Path.str y
     +:+ ".geojson.gz") /\
  (forall k k', tile_path out k = tile_path out k' -> k = k').
Proof.
  split; [apply tile_path_layout|].
  intros [[z x] y] [[z' x'] y']. rewrite !tile_path_layout.
  intros E. apply (inj (String.append _)) in E.
  apply split_at_first in E; try (apply str_chars; left; reflexivity).
  destruct E as [Ez E].
  apply split_at_first in E; try (apply str_chars; left; reflexivity).
  destruct E as [Ex E].
  change (Path.str y +:+ String "."%char "geojson.gz"
          = Path.str y' +:+ String "."%char "geojson.gz") in E.
  apply split_at_first in E; try (apply str_chars; right; left; reflexivity).
  destruct E as [Ey _].
  unfold Path.str in *.
  apply (inj pretty) in Ez, Ex, Ey. subst. reflexivity.
Qed.

Lemma tile_path_determines_key_witness :
  tile_path "tiles" (6, 33, 13) = "tiles/6/33/13.geojson.gz" /\
  ((6, 33, 13) : key) = (6, 33, 13).
Proof.
  split; [reflexivity|].
  apply (proj2 (tile_path_determines_key "tiles")). reflexivity.
Defined.

(** ** The column option *)

Lemma split_comma_no_comma (s : string) :
  Forall (fun p => has_char "," p = false) (Str.split_comma s).
Proof.
  induction s as [|c s IH]; cbn [Str.split_comma].
  - constructor; [reflexivity | constructor].
  - destruct (Ascii.eqb c ",") eqn:Ec.
    + constructor; [reflexivity | exact IH].
    + destruct (Str.split_comma s) as [|h t].
      * constructor; [|constructor]. cbn. rewrite Ec. reflexivity.
      * apply Forall_cons in IH. destruct IH as [Hh Ht].
        constructor; [|exact Ht]. cbn. rewrite Ec, Hh. reflexivity.
Qed.

Lemma split_comma_single (a : string) :
  has_char "," a = false -> Str.split_comma a = [a].
Proof.
  induction a as [|x a IH]; [reflexivity|]. cbn [has_char Str.split_comma].
  intros H. apply orb_false_elim in H. destruct H as [Hx Ha].
  rewrite Hx, (IH Ha). reflexivity.
Qed.

Lemma split_comma_prefix (a rest : string) :
  has_char "," a = false ->
  Str.split_comma (a +:+ String "," rest) = a :: Str.split_comma rest.
Proof.
  induction a as [|x a IH]; [reflexivity|]. rewrite sapp_cons.
  cbn [has_char Str.split_comma].
  intros H. apply orb_false_elim in H. destruct H as [Hx Ha].
  rewrite Hx, (IH Ha). reflexivity.
Qed.

Lemma lstrip_chars (c : ascii) (s : string) :
  has_char c s = false -> has_char c (Str.lstrip s) = false.
Proof.
  induction s as [|x s IH]; [reflexivity|]. cbn [Str.lstrip]. intros H.
  destruct (Str.is_space x); [|exact H].
  cbn in H. apply orb_false_elim in H. apply IH, H.
Qed.

Lemma rstrip_chars (c : ascii) (s : string) :
  has_char c s = false -> has_char c (Str.rstrip s) = false.
Proof.
  induction s as [|x s IH]; [reflexivity|]. cbn [Str.rstrip has_char]. intros H.
  apply orb_false_elim in H. destruct H as [Hx Hs]. specialize (IH Hs).
  destruct (Str.rstrip s) as [|d t].
  - destruct (Str.is_space x); [reflexivity|]. cbn. rewrite Hx. reflexivity.
  - cbn [has_char] in *. rewrite Hx, IH. reflexivity.
Qed.

Lemma lstrip_starts (s : string) :
  match Str.lstrip s with
  | String c _ => Str.is_space c = false
  | EmptyString => True
  end.
Proof.
  induction s as [|x s IH]; [exact I|]. cbn [Str.lstrip].
  destruct (Str.is_space x) eqn:E; [exact IH | exact E].
Qed.

Lemma rstrip_keeps_start (s : string) :
  match s with String c _ => Str.is_space c = false | EmptyString => True end ->
  Str.lstrip (Str.rstrip s) = Str.rstrip s.
Proof.
  destruct s as [|x s]; [reflexivity|]. intros Hx. cbn [Str.rstrip].
  destruct (Str.rstrip s) as [|d t]; rewrite ?Hx; cbn [Str.lstrip]; rewrite Hx;
    reflexivity.
Qed.

Lemma rstrip_idem (s : string) : Str.rstrip (Str.rstrip s) = Str.rstrip s.
Proof.
  induction s as [|x s IH]; [reflexivity|]. cbn [Str.rstrip].
  destruct (Str.rstrip s) as [|d t] eqn:E.
  - destruct (Str.is_space x) eqn:Ex; [reflexivity|]. cbn. rewrite Ex. reflexivity.
  - cbn [Str.rstrip] in *. rewrite IH. reflexivity.
Qed.

Lemma strip_idem (s : string) : Str.strip (Str.strip s) = Str.strip s.
Proof.
  unfold Str.strip.
  rewrite (rstrip_keeps_start (Str.lstrip s) (lstrip_starts s)).
  apply rstrip_idem.
Qed.

Lemma split_join_comma (cols : list string) :
  Forall (fun c => has_char "," c = false) cols ->
  Str.split_comma (Str.join_comma cols) =
  match cols with [] => [EmptyString] | _ :: _ => cols end.
Proof.
  induction cols as [|a cols IH]; intros H; [reflexivity|].
  apply Forall_cons in H. destruct H as [Ha Hcols]. cbn [Str.join_comma].
  destruct cols as [|b cols]; [apply split_comma_single, Ha|].
  rewrite (split_comma_prefix a _ Ha), (IH Hcols). reflexivity.
Qed.

(** X12: the columns read from the option [--keep-cols], for any text of
    the option, are not empty, have no comma and no white space at either
    end; and the text made of such column names joined by commas is read
    back as these names, in their order. *)
Theorem parse_keep_cols_spec :
  (forall s, Forall clean_col (parse_keep_cols s)) /\
  (forall cols, Forall clean_col cols ->
     parse_keep_cols (Str.join_comma cols) = cols).
Proof.
  split.
  - intros s. unfold parse_keep_cols. apply Forall_forall. intros c Hc.
    apply list_elem_of_fmap in Hc. destruct Hc as (p & -> & Hp).
    apply list_elem_of_filter in Hp. destruct Hp as [Hne Hp].
    pose proof (split_comma_no_comma s) as Hall. rewrite Forall_forall in Hall.
    split; [exact Hne|]. split; [|apply strip_idem].
    unfold Str.strip. apply rstrip_chars, lstrip_chars, Hall, Hp.
  - intros cols Hcols. unfold parse_keep_cols.
    rewrite split_join_comma
      by (eapply Forall_impl; [exact Hcols | intros c (_ & H & _); exact H]).
    assert (Hkeep : map Str.strip
                      (filter (fun c => Str.strip c <> EmptyString) cols) = cols).
    { clear -Hcols. induction cols as [|c cols IH]; [reflexivity|].
      apply Forall_cons in Hcols. destruct Hcols as [(Hne & _ & Hs) Hcols].
      rewrite filter_cons_True by (rewrite Hs; exact Hne).
      cbn [map]. rewrite Hs, (IH Hcols). reflexivity. }
    destruct cols as [|a cols]; [reflexivity | exact Hkeep].
Qed.

Lemma parse_keep_cols_spec_witness :
  parse_keep_cols default_keep_cols =
  ["observation_uuid"; "taxon_id"; "quality_grade"; "observed_on";
   "observer_id"; "positional_accuracy"].
Proof.
  apply (proj2 parse_keep_cols_spec
           ["observation_uuid"; "taxon_id"; "quality_grade"; "observed_on";
            "observer_id"; "positional_accuracy"]).
  repeat constructor; discriminate.
Defined.

(** ** The further properties on the examples *)

Lemma run_returns_row_count_witness :
  (3 : Z) = Z.of_nat (length three_rows) /\
  rows_seen (@main sample_runtime cfg66 three_rows (init_world ∅)).2 = 3.
Proof.
  apply (@run_returns_row_count sample_runtime cfg66 three_rows ∅ 3
           (@main sample_runtime cfg66 three_rows (init_world ∅)).2).
  vm_compute. reflexivity.
Defined.

Lemma zero_batch_aborts_at_first_accepted_row_witness :
  exists b,
    @main sample_runtime (with_batch 0 cfg66) mixed_rows (init_world ∅)
    = (Raise ZeroDivisionError, World b 2 ∅ []) /\
    bucket_total b = 1.
Proof.
  apply (proj1 (@zero_batch_aborts_at_first_accepted_row sample_runtime
                  (with_batch 0 cfg66) eq_refl)
           [mk_row "10" "200"] [mk_row "47.01" "8.51"] (mk_row "47.0" "8.5")
           47.0%float 8.5%float [tile_6_33_13] ∅).
  - constructor; [vm_compute; reflexivity | constructor].
  - vm_compute. reflexivity.
  - vm_compute. reflexivity.
Defined.

Lemma negative_zoom_aborts_at_first_accepted_row_witness :
  @main sample_runtime (Config "latitude" "longitude" (-1) 6 [] 200000)
    mixed_rows (init_world ∅)
  = (Raise ValueError, World [] 2 ∅ []).
Proof.
  apply (proj2 (@negative_zoom_aborts_at_first_accepted_row sample_runtime
                  (Config "latitude" "longitude" (-1) 6 [] 200000)
                  ltac:(cbn; lia) ltac:(cbn; lia))
           [mk_row "10" "200"] [mk_row "47.01" "8.51"] (mk_row "47.0" "8.5")
           (47.0%float, 8.5%float) ∅).
  - constructor; [vm_compute; reflexivity | constructor].
  - vm_compute. reflexivity.
Defined.

Lemma empty_zoom_range_writes_nothing_witness :
  exists fl,
    @main sample_runtime (Config "latitude" "longitude" 8 5 [] 200000)
      three_rows (init_world corrupt_dir)
    = (Ok 3, World [] 3 corrupt_dir fl).
Proof.
  apply (@empty_zoom_range_writes_nothing sample_runtime
           (Config "latitude" "longitude" 8 5 [] 200000) three_rows corrupt_dir).
  - cbn. lia.
  - cbn. lia.
Defined.

Lemma flush_touches_only_buffered_tiles_witness :
  exists w2,
    flush_buckets (flush_buckets (World [(tile_6_33_13, [zurich])] 1 ∅ [])).2
    = (Ok tt, w2) /\
    disk w2 = disk (flush_buckets (World [(tile_6_33_13, [zurich])] 1 ∅ [])).2 /\
    buckets w2 = [].
Proof.
  apply (flush_touches_only_buffered_tiles
           (World [(tile_6_33_13, [zurich])] 1 ∅ [])
           (flush_buckets (World [(tile_6_33_13, [zurich])] 1 ∅ [])).2).
  vm_compute. reflexivity.
Defined.

Lemma buffer_bounded_without_skipped_rows_witness :
  exists w',
    for_each (@process_row sample_runtime cfg_batch2)
      [mk_row "47.0" "8.5"; mk_row "47.01" "8.51"; mk_row "47.0" "8.5"]
      (init_world ∅)
    = (Ok tt, w') /\
    bucket_total (buckets w') = 1.
Proof.
  destruct (@buffer_bounded_without_skipped_rows sample_runtime cfg_batch2
              [mk_row "47.0" "8.5"; mk_row "47.01" "8.51"; mk_row "47.0" "8.5"]
              (match @plan sample_runtime cfg_batch2
                       [mk_row "47.0" "8.5"; mk_row "47.01" "8.51"; mk_row "47.0" "8.5"]
               with Ok ins => ins | Raise _ => [] end) ∅)
    as (w' & E & Ht & _).
  - cbn. lia.
  - repeat constructor; vm_compute; eexists; reflexivity.
  - vm_compute. reflexivity.
  - intros k. rewrite lookup_empty. discriminate.
  - exists w'. split; [exact E | exact Ht].
Defined.

Lemma run_appends_in_input_order_witness :
  exists w',
    @main sample_runtime cfg66 three_rows
      (init_world {[ tile_6_33_13 := FeatureCollection [zurich] ]})
    = (Ok 3, w') /\
    buckets w' = [].
Proof.
  destruct (@run_appends_in_input_order sample_runtime cfg66 three_rows
              (match @plan sample_runtime cfg66 three_rows
               with Ok ins => ins | Raise _ => [] end)
              {[ tile_6_33_13 := FeatureCollection [zurich] ]})
    as (w' & E & Hb & _).
  - cbn. lia.
  - vm_compute. reflexivity.
  - intros k. destruct (decide (k = tile_6_33_13)) as [->|Hk].
    + rewrite lookup_singleton_eq. discriminate.
    + rewrite lookup_singleton_ne by congruence. discriminate.
  - exists w'. split; [exact E | exact Hb].
Defined.

Lemma row_props_spec_witness :
  row_props (Config "latitude" "longitude" 6 6 ["taxon_id"; "observed_on"] 200000)
    (<["taxon_id" := Some "42"]> (mk_row "47.0" "8.5"))
  = [("taxon_id", "42"); ("observed_on", "")].
Proof.
  rewrite (proj2 (proj2 (proj2
             (row_props_spec
                (Config "latitude" "longitude" 6 6 ["taxon_id"; "observed_on"] 200000)
                (<["taxon_id" := Some "42"]> (mk_row "47.0" "8.5")))))).
  - vm_compute. reflexivity.
  - apply (bool_decide_unpack _). vm_compute. reflexivity.
Defined.

(** ** Where the features land *)

Lemma feats_of_elem (ins : list (key * feature)) (k : key) (f : feature) :
  f ∈ feats_of ins k <-> (k, f) ∈ ins.
Proof.
  induction ins as [|[k' f'] ins IH]; cbn [feats_of].
  - split; intros H; inversion H.
  - rewrite elem_of_app, elem_of_cons, IH.
    destruct (decide (k = k')) as [->|Hne].
    + rewrite list_elem_of_singleton. split.
      * intros [->|H]; [left; reflexivity | right; exact H].
      * intros [[= ->]|H]; [left; reflexivity | right; exact H].
    + split.
      * intros [H|H]; [inversion H | right; exact H].
      * intros [[= -> _]|H]; [congruence | right; exact H].
Qed.

Section Placement.

Context {rt : runtime}.
Variable cfg : config.

Lemma keys_at_elem (lon lat : float) (zs : list Z) (ks : list key) (k : key) :
  keys_at lon lat zs = Ok ks ->
  k ∈ ks <-> k.1.1 ∈ zs /\ lonlat_to_tile lon lat k.1.1 = Ok (k.1.2, k.2).
Proof.
  revert ks. induction zs as [|z zs IH]; intros ks; cbn [keys_at].
  - intros [= <-]. split; [intros H; inversion H | intros [H _]; inversion H].
  - destruct (lonlat_to_tile lon lat z) as [[x y]|e] eqn:Et; cbn; [|discriminate].
    destruct (keys_at lon lat zs) as [ks'|e] eqn:Ek; cbn; [|discriminate].
    intros [= <-]. rewrite !elem_of_cons, (IH ks' eq_refl). split.
    + intros [->|[Hz Hk]]; [split; [left; reflexivity | exact Et]|].
      split; [right; exact Hz | exact Hk].
    + destruct k as [[kz kx] ky]. cbn. intros [[->|Hz] Hk].
      * left. rewrite Et in Hk. injection Hk as <- <-. reflexivity.
      * right. split; assumption.
Qed.

Lemma row_plan_elem (r : row) (a : list (key * feature)) (k : key) (f : feature) :
  row_plan cfg r = Ok a ->
  (k, f) ∈ a <->
  exists lat lon,
    accepted cfg r = Some (lat, lon) /\
    f = Feature (lon, lat) (row_props cfg r) /\
    min_zoom cfg <= k.1.1 <= max_zoom cfg /\
    lonlat_to_tile lon lat k.1.1 = Ok (k.1.2, k.2).
Proof.
  unfold row_plan. destruct (accepted cfg r) as [[lat lon]|].
  - destruct (tile_keys cfg lon lat) as [ks|e] eqn:Eks; cbn; [|discriminate].
    intros [= <-]. rewrite list_elem_of_fmap. split.
    + intros (k' & [= <- ->] & Hk). exists lat, lon.
      apply (keys_at_elem _ _ _ _ _ Eks) in Hk. rewrite range_incl_elem in Hk.
      split; [reflexivity|]. split; [reflexivity | exact Hk].
    + intros (lat' & lon' & [= <- <-] & -> & Hz & Hk). exists k.
      split; [reflexivity|]. apply (keys_at_elem _ _ _ _ _ Eks).
      rewrite range_incl_elem. split; assumption.
  - intros [= <-]. split; [intros H; inversion H|].
    intros (lat & lon & H & _). discriminate.
Qed.

Lemma plan_elem (rows : list row) (ins : list (key * feature)) (k : key) (f : feature) :
  plan cfg rows = Ok ins ->
  (k, f) ∈ ins <->
  exists r lat lon,
    r ∈ rows /\
    accepted cfg r = Some (lat, lon) /\
    f = Feature (lon, lat) (row_props cfg r) /\
    min_zoom cfg <= k.1.1 <= max_zoom cfg /\
    lonlat_to_tile lon lat k.1.1 = Ok (k.1.2, k.2).
Proof.
  revert ins. induction rows as [|r rows IH]; intros ins; cbn [plan].
  - intros [= <-]. split; [intros H; inversion H|].
    intros (r & lat & lon & H & _). inversion H.
  - destruct (row_plan cfg r) as [a|e] eqn:Ea; cbn; [|discriminate].
    destruct (plan cfg rows) as [b|e] eqn:Eb; cbn; [|discriminate].
    intros [= <-]. rewrite elem_of_app, (row_plan_elem r a k f Ea), (IH b eq_refl).
    split.
    + intros [(lat & lon & H)|(r' & lat & lon & Hin & H)].
      * exists r, lat, lon. split; [left | exact H].
      * exists r', lat, lon. split; [right; exact Hin | exact H].
    + intros (r' & lat & lon & Hin & H). apply elem_of_cons in Hin.
      destruct Hin as [->|Hin].
      * left. exists lat, lon. exact H.
      * right. exists r', lat, lon. split; assumption.
Qed.

(** X13: after a run that ends (directory without unreadable file, batch
    size other than 0, no mapper call raising), a feature is in the tile
    [(z, x, y)] exactly when it was there before or it is the feature of an
    accepted row of the input, [z] is a zoom level of the range and the
    mapper sends the row's coordinates to [(x, y)] at zoom [z]: every
    accepted record is in its mapper tile at every zoom of the range, and in
    no other tile. *)
Theorem features_land_in_mapper_tiles (rows : list row)
    (ins : list (key * feature)) (d : gmap key tile_file) :
  batch cfg <> 0 ->
  plan cfg rows = Ok ins ->
  disk_ok d ->
  exists w',
    main cfg rows (init_world d) = (Ok (Z.of_nat (length rows)), w') /\
    forall k f,
      f ∈ tile_features (disk w') k <->
      f ∈ tile_features d k \/
      exists r lat lon,
        r ∈ rows /\
        accepted cfg r = Some (lat, lon) /\
        f = Feature (lon, lat) (row_props cfg r) /\
        min_zoom cfg <= k.1.1 <= max_zoom cfg /\
        lonlat_to_tile lon lat k.1.1 = Ok (k.1.2, k.2).
Proof.
  intros Hb Hplan Hok.
  destruct (run_spec cfg rows ins d Hb Hplan Hok) as (d' & E & _ & Hd').
  eexists. split; [exact E|]. cbn [disk]. intros k f.
  rewrite (tile_features_merge d' (d !! k) (feats_of ins k) k (Hd' k) (Hok k)).
  rewrite elem_of_app, feats_of_elem, (plan_elem rows ins k f Hplan).
  unfold tile_features. destruct (d !! k) as [[|old]|]; reflexivity.
Qed.

End Placement.

Lemma features_land_in_mapper_tiles_witness :
  exists w',
    @main sample_runtime cfg66 three_rows (init_world ∅) = (Ok 3, w') /\
    zurich ∈ tile_features (disk w') tile_6_33_13.
Proof.
  destruct (@features_land_in_mapper_tiles sample_runtime cfg66 three_rows
              (match @plan sample_runtime cfg66 three_rows
               with Ok ins => ins | Raise _ => [] end) ∅)
    as (w' & E & H).
  - cbn. lia.
  - vm_compute. reflexivity.
  - intros k. rewrite lookup_empty. discriminate.
  - exists w'. split; [exact E|]. apply H. right.
    exists (mk_row "47.0" "8.5"), 47.0%float, 8.5%float.
    split; [left|]. split; [vm_compute; reflexivity|].
    split; [reflexivity|]. split; [cbn; lia | vm_compute; reflexivity].
Defined.
